(** * Server-side renderer middleware ([src/server/renderer.jsx])

    A shallow embedding of the ExpressJS middleware factory of
    [src/server/renderer.jsx] and of the properties its specification
    states about it.

    Conventions of the embedding.
    - A JavaScript string is a Rocq [string], one character per code unit;
      code units above 255 are outside the model.  A node-forge "binary
      string" (a key, an IV, a ciphertext) is such a string, one character
      per byte, which is how node-forge itself holds bytes.
    - An asynchronous computation is a state transformer over a [world]
      (position in the random stream, the global [TRU_BUILD_INFO], the log of
      the observable calls) that ends in an [outcome]: the promise resolved,
      rejected, or was left unsettled by an exception that escaped an
      asynchronous callback.
    - Code that belongs to the platform and not to the repository (the file
      system, [JSON.parse], [path.resolve], the AES cipher and the random
      source of node-forge, react-helmet) is taken from an [Env] record. *)

From Stdlib Require Import String Ascii List ZArith NArith Bool Lia.
From Stdlib Require Import DecimalString.
Import ListNotations.

Local Open Scope list_scope.
Local Open Scope string_scope.

(* ================================================================= *)
(** * Strings *)

Module Str.

(** The double quote and the line feed, the two characters of the page
    template that are awkward inside a literal. *)
Definition dq : string := String (ascii_of_nat 34) EmptyString.
Definition nl : string := String (ascii_of_nat 10) EmptyString.

(** [Array.prototype.join('')] on an array of strings. *)
Definition join0 (l : list string) : string := String.concat EmptyString l.

(** [Array.prototype.join(sep)]. *)
Definition join (sep : string) (l : list string) : string := String.concat sep l.

(** [haystack.indexOf(needle)], [None] for [-1]. *)
Definition indexOf (haystack needle : string) : option nat :=
  String.index 0 needle haystack.

Definition includes (haystack needle : string) : bool :=
  match indexOf haystack needle with Some _ => true | None => false end.

Definition startsWith (s p : string) : bool := String.prefix p s.

End Str.

(* ================================================================= *)
(** * JSON values, [JSON.stringify], [serialize-javascript], lodash *)

Module Json.

#[local] Set Warnings "-register-all".

(** Values that survive [JSON.stringify]; an object keeps its properties
    in enumeration order.  Numbers are the integers. *)
Inductive json : Type :=
| JNull
| JBool (b : bool)
| JNum (z : Z)
| JStr (s : string)
| JArr (items : list json)
| JObj (props : list (string * json)).

(** Truthiness of a value, as [||], [?:] and [if] test it. *)
Definition truthy (j : json) : bool :=
  match j with
  | JNull => false
  | JBool b => b
  | JNum z => negb (Z.eqb z 0)
  | JStr s => negb (String.eqb s EmptyString)
  | JArr _ | JObj _ => true
  end.

(** Property read [o.k]; [None] is [undefined]. *)
Fixpoint lookup (k : string) (props : list (string * json)) : option json :=
  match props with
  | [] => None
  | (k', v) :: rest => if String.eqb k k' then Some v else lookup k rest
  end.

Definition get (k : string) (j : json) : option json :=
  match j with JObj props => lookup k props | _ => None end.

(** [_.omit(object, key)] for a top-level key: a new object with the other
    properties, in their order. *)
Definition omit (j : json) (k : string) : json :=
  match j with
  | JObj props => JObj (filter (fun kv => negb (String.eqb (fst kv) k)) props)
  | _ => JObj []
  end.

Definition hex_digit (n : N) : ascii :=
  match String.get (N.to_nat n) "0123456789abcdef" with
  | Some c => c
  | None => "0"%char
  end.

(** One character of a string literal, as [JSON.stringify] quotes it. *)
Definition escape_char (c : ascii) : string :=
  let n := N_of_ascii c in
  if N.eqb n 34 then "\" ++ Str.dq
  else if N.eqb n 92 then "\\"
  else if N.eqb n 8 then "\b"
  else if N.eqb n 12 then "\f"
  else if N.eqb n 10 then "\n"
  else if N.eqb n 13 then "\r"
  else if N.eqb n 9 then "\t"
  else if N.ltb n 32 then
    "\u00" ++ String (hex_digit (N.div n 16)) (String (hex_digit (N.modulo n 16)) EmptyString)
  else String c EmptyString.

Fixpoint escape (s : string) : string :=
  match s with
  | EmptyString => EmptyString
  | String c rest => escape_char c ++ escape rest
  end.

Definition quote (s : string) : string := Str.dq ++ escape s ++ Str.dq.

Definition string_of_Z (z : Z) : string := NilZero.string_of_int (Z.to_int z).

(** [JSON.stringify(value)], no indentation. *)
Fixpoint stringify (j : json) : string :=
  match j with
  | JNull => "null"
  | JBool true => "true"
  | JBool false => "false"
  | JNum z => string_of_Z z
  | JStr s => quote s
  | JArr items => "[" ++ Str.join "," (map stringify items) ++ "]"
  | JObj props =>
      "{" ++ Str.join ","
               (map (fun kv => match kv with
                               | (k, v) => quote k ++ ":" ++ stringify v
                               end) props) ++ "}"
  end.

(** [serializeJs(value, { isJSON: true })]: [JSON.stringify], then the
    characters that could close a script element are written as unicode
    escapes.  The library escapes [<], [>], [/], U+2028 and U+2029; the last
    two are not characters of the strings modelled here. *)
Fixpoint escapeUnsafeChars (s : string) : string :=
  match s with
  | EmptyString => EmptyString
  | String c rest =>
      let n := N_of_ascii c in
      if N.eqb n 60 then "\u003C" ++ escapeUnsafeChars rest
      else if N.eqb n 62 then "\u003E" ++ escapeUnsafeChars rest
      else if N.eqb n 47 then "\u002F" ++ escapeUnsafeChars rest
      else String c (escapeUnsafeChars rest)
  end.

Definition serializeJs (j : json) : string := escapeUnsafeChars (stringify j).

End Json.
Import Json.

(* ================================================================= *)
(** * [forge.util.encode64] *)

Module Base64.

Definition alphabet : string :=
  "ABCDEFGHIJKLMNOPQRSTUVWXYZabcdefghijklmnopqrstuvwxyz0123456789+/".

Definition charAt (n : N) : ascii :=
  match String.get (N.to_nat n) alphabet with
  | Some c => c
  | None => "="%char
  end.

(** The loop of [encode64], three input bytes for four output characters,
    padded with [=]. *)
Fixpoint encode64 (input : string) : string :=
  match input with
  | EmptyString => EmptyString
  | String a EmptyString =>
      let chr1 := N_of_ascii a in
      String (charAt (N.shiftr chr1 2))
        (String (charAt (N.shiftl (N.land chr1 3) 4)) "==")
  | String a (String b EmptyString) =>
      let chr1 := N_of_ascii a in
      let chr2 := N_of_ascii b in
      String (charAt (N.shiftr chr1 2))
        (String (charAt (N.lor (N.shiftl (N.land chr1 3) 4) (N.shiftr chr2 4)))
           (String (charAt (N.shiftl (N.land chr2 15) 2)) "="))
  | String a (String b (String c rest)) =>
      let chr1 := N_of_ascii a in
      let chr2 := N_of_ascii b in
      let chr3 := N_of_ascii c in
      String (charAt (N.shiftr chr1 2))
        (String (charAt (N.lor (N.shiftl (N.land chr1 3) 4) (N.shiftr chr2 4)))
           (String (charAt (N.lor (N.shiftl (N.land chr2 15) 2) (N.shiftr chr3 6)))
              (String (charAt (N.land chr3 63)) (encode64 rest))))
  end.

(** [forge.util.encodeUtf8], on code units below 256: one byte below 128,
    two bytes from 128 on. *)
Fixpoint encodeUtf8 (str : string) : string :=
  match str with
  | EmptyString => EmptyString
  | String c rest =>
      let n := N_of_ascii c in
      if N.ltb n 128 then String c (encodeUtf8 rest)
      else String (ascii_of_N (N.lor 192 (N.shiftr n 6)))
             (String (ascii_of_N (N.lor 128 (N.land n 63))) (encodeUtf8 rest))
  end.

End Base64.

(* ================================================================= *)
(** * Promises, the world, the platform *)

Inductive error : Type :=
| FsError (code path : string)   (** the [err] of [fs.readFile] *)
| SyntaxError (text : string)    (** thrown by [JSON.parse] *)
| RandomError (message : string) (** the [err] of [forge.random.getBytes] *)
| InvalidKey                     (** thrown when the cipher is started *)
| TypeError (message : string)   (** a property of [null] or [undefined] is read *)
| UserError (message : string).  (** raised by code the caller supplied *)

(** How a promise ends.  [Unsettled e]: the exception [e] was thrown inside an
    asynchronous callback, outside of any promise: it reaches the event loop
    uncaught, and the promise stays pending for ever. *)
Inductive outcome (A : Type) : Type :=
| Resolved (a : A)
| Rejected (e : error)
| Unsettled (e : error).
Arguments Resolved {A} a.
Arguments Rejected {A} e.
Arguments Unsettled {A} e.

Definition settled_ok {A} (o : outcome A) : bool :=
  match o with Resolved _ => true | _ => false end.

Record request : Type := { url : string }.

(** The calls a run makes that an observer outside of the handler sees: to
    the caller's hook, to the random source, to react-helmet, and to the
    transport layer ([res.status], [res.send], and [next], the error
    callback ExpressJS hands to a middleware as its third argument). *)
Inductive event : Type :=
| BeforeRender (req : request) (cfg : json)
| GetBytes (count : nat)
| RenderStatic
| Status (code : Z)
| Send (body : string)
| Next (e : error).

Record world : Type := {
  rng_pos : nat;                    (** bytes drawn from the random stream *)
  TRU_BUILD_INFO : option json;     (** [global.TRU_BUILD_INFO] *)
  log : list event
}.

Definition M (A : Type) : Type := world -> outcome A * world.

Definition ret {A} (a : A) : M A := fun w => (Resolved a, w).

Definition bind {A B} (m : M A) (f : A -> M B) : M B :=
  fun w =>
    match m w with
    | (Resolved a, w') => f a w'
    | (Rejected e, w') => (Rejected e, w')
    | (Unsettled e, w') => (Unsettled e, w')
    end.

Definition throw {A} (e : error) : M A := fun w => (Rejected e, w).

Definition emit (ev : event) : M unit :=
  fun w => (Resolved tt,
            {| rng_pos := rng_pos w;
               TRU_BUILD_INFO := TRU_BUILD_INFO w;
               log := log w ++ [ev] |}).

Declare Scope m_scope.
Delimit Scope m_scope with M.
Notation "x <- m ;; k" := (bind m (fun x => k))
  (at level 61, m at next level, right associativity) : m_scope.

(** ** The data of the middleware *)

Record Store : Type := { getState : error + json }.

(** What [beforeRender] resolves to; [None] is a field left [undefined]. *)
Record RenderData : Type := {
  configToInject : option json;
  extraScripts : option (list string);
  store : option Store
}.

(** A call of the hook throws, or returns a promise; the promise may
    resolve to [null] or [undefined], here [None], where the handler expects
    an object. *)
Inductive hook_result : Type :=
| HookThrows (e : error)
| HookReturns (p : outcome (option RenderData)).

Definition hook : Type := request -> json -> hook_result.

Definition component : Type := string.

Record Options : Type := {
  Application : option component;
  beforeRender : option hook;
  maxSsrRounds : option nat
}.

Record Output : Type := { publicPath : string }.
Record WebpackConfig : Type := { context : string; output : Output }.

(** The [context] object of a request: the status react-router may set, the
    chunk names, the pre-rendered markup of the chunks. *)
Record Context : Type := {
  status : option Z;
  chunks : list string;
  splits : json
}.

Record HelmetData : Type := { title : string; meta : string }.

(** React elements, as the JSX of the handler builds them. *)
Inductive element : Type :=
| Element (type : component)
| StaticRouter (ctx : Context) (location : string) (child : element)
| Provider (st : Store) (child : element).

(** A React element is a plain object: in a template literal it takes
    [Object.prototype.toString]. *)
Definition element_toString (e : element) : string := "[object Object]".

Record Cipher : Type := { cipher_key : string; cipher_iv : string }.

(** The platform. *)
Record Env : Type := {
  config : json;                                  (** the [config] module *)
  path_resolve : string -> string -> string;      (** [path.resolve] *)
  fs_readFile : string -> error + string;         (** [err] or the content *)
  JSON_parse : string -> option json;             (** [None]: it throws *)
  random_stream : nat -> ascii;                   (** the bytes of the source *)
  random_error : nat -> option error;             (** the source fails there *)
  forge_key : option json -> option string;
    (** the bytes of a key an AES cipher starts with; [None]: creating or
        starting the cipher throws *)
  aes_cbc : string -> string -> string -> string; (** key, iv, data *)
  Helmet_renderStatic : HelmetData;
  hook_settles_first : bool                       (** the race in [Promise.all] *)
}.

(* ================================================================= *)
(** * The page *)

Module Page.
Import Str.

(** One stylesheet link of [context.chunks.map(...)]. *)
Definition chunk_link (chunk : string) : string :=
  "<link data-chunk=" ++ dq ++ chunk ++ dq ++ " href=" ++ dq ++ "/" ++ chunk
    ++ ".css" ++ dq ++ " rel=" ++ dq ++ "stylesheet" ++ dq ++ " />".

(** [const styles = context.chunks.map(chunk => ...).join('')]. *)
Definition styles (ctx : Context) : string := join0 (map chunk_link (chunks ctx)).

(** [helmet ? helmet.title.toString() : ''] and the same for [meta]. *)
Definition helmet_title (helmet : option HelmetData) : string :=
  match helmet with Some h => title h | None => EmptyString end.
Definition helmet_meta (helmet : option HelmetData) : string :=
  match helmet with Some h => meta h | None => EmptyString end.

(** [App || '']. *)
Definition root_markup (App : option element) : string :=
  match App with Some e => element_toString e | None => EmptyString end.

(** [extraScripts ? extraScripts.join('') : '']. *)
Definition extra_markup (extraScripts : option (list string)) : string :=
  match extraScripts with Some l => join0 l | None => EmptyString end.

(** The template literal of [res.send], cut at its landmarks.  From
    [<!DOCTYPE html>] to the place of the links of the chunks: *)
Definition head_top (helmet : option HelmetData) (publicPath : string) : string :=
  "<!DOCTYPE html>" ++ nl ++
  "      <html>" ++ nl ++
  "        <head>" ++ nl ++
  "          " ++ helmet_title helmet ++ nl ++
  "          " ++ helmet_meta helmet ++ nl ++
  "          <link" ++ nl ++
  "            href=" ++ dq ++ publicPath ++ "main.css" ++ dq ++ nl ++
  "            rel=" ++ dq ++ "stylesheet" ++ dq ++ nl ++
  "          />" ++ nl ++
  "          ".

(** From the end of that line to the line of [<body>]: *)
Definition head_bottom : string :=
  nl ++
  "          <link rel=" ++ dq ++ "shortcut icon" ++ dq ++ " href=" ++ dq
    ++ "/favicon.ico" ++ dq ++ " />" ++ nl ++
  "          <meta charset=" ++ dq ++ "utf-8" ++ dq ++ " />" ++ nl ++
  "          <meta" ++ nl ++
  "            content=" ++ dq ++ "width=device-width,initial-scale=1.0" ++ dq ++ nl ++
  "            name=" ++ dq ++ "viewport" ++ dq ++ nl ++
  "          />" ++ nl ++
  "        </head>" ++ nl ++
  "        <body>" ++ nl.

Definition head_block (helmet : option HelmetData) (publicPath styles : string)
  : string :=
  head_top helmet publicPath ++ styles ++ head_bottom.

(** The indentation in front of each element of the body. *)
Definition indent : string := "          ".

Definition root_div (root : string) : string :=
  "<div id=" ++ dq ++ "react-view" ++ dq ++ ">" ++ root ++ "</div>".

Definition inj_script (splitsJs INJ : string) : string :=
  "<script id=" ++ dq ++ "inj" ++ dq ++ " type=" ++ dq
    ++ "application/javascript" ++ dq ++ ">" ++ nl ++
  "            window.SPLITS = " ++ splitsJs ++ nl ++
  "            window.INJ=" ++ dq ++ INJ ++ dq ++ nl ++
  "          </script>".

Definition polyfills_script (publicPath : string) : string :=
  "<script" ++ nl ++
  "            src=" ++ dq ++ publicPath ++ "polyfills.js" ++ dq ++ nl ++
  "            type=" ++ dq ++ "application/javascript" ++ dq ++ nl ++
  "          ></script>".

Definition main_script (publicPath : string) : string :=
  "<script" ++ nl ++
  "            src=" ++ dq ++ publicPath ++ "main.js" ++ dq ++ " " ++ nl ++
  "            type=" ++ dq ++ "application/javascript" ++ dq ++ nl ++
  "          ></script>".

Definition page_end : string :=
  nl ++ "        </body>" ++ nl ++ "      </html>".

(** What follows the inline script: the polyfills, the caller's scripts,
    the main bundle, the closing tags. *)
Definition scripts_block (publicPath extras : string) : string :=
  indent ++ polyfills_script publicPath ++ nl ++
  indent ++ extras ++ nl ++
  indent ++ main_script publicPath ++ page_end.

(** The whole document, as a function of the values the template
    interpolates. *)
Definition page (helmet : option HelmetData) (publicPath : string)
    (ctx : Context) (App : option element) (INJ : string)
    (extraScripts : option (list string)) : string :=
  head_block helmet publicPath (styles ctx) ++
  indent ++ root_div (root_markup App) ++ nl ++
  indent ++ inj_script (serializeJs (splits ctx)) INJ ++ nl ++
  scripts_block publicPath (extra_markup extraScripts).

End Page.

(* ================================================================= *)
(** * The middleware *)

Section Renderer.

Variable E : Env.

Local Open Scope m_scope.

(** [const sanitizedConfig = _.omit(config, 'SECRET');] *)
Definition sanitizedConfig : json := omit (config E) "SECRET".

(** ** [getBuildInfo] *)

(** [JSON.parse] runs inside the callback of [fs.readFile]: when it throws,
    neither [resolve] nor [reject] is ever called. *)
Definition getBuildInfo (context : string) : M json :=
  fun w =>
    let url := path_resolve E context ".build-info" in
    match fs_readFile E url with
    | inl err => (Rejected err, w)
    | inr info =>
        match JSON_parse E info with
        | Some v => (Resolved v, w)
        | None => (Unsettled (SyntaxError info), w)
        end
    end.

(** ** [prepareCipher] *)

(** [count] bytes of the random stream from position [pos]. *)
Fixpoint random_bytes (pos count : nat) : string :=
  match count with
  | O => EmptyString
  | S n => String (random_stream E pos) (random_bytes (S pos) n)
  end.

Definition advance (count : nat) (w : world) : world :=
  {| rng_pos := rng_pos w + count;
     TRU_BUILD_INFO := TRU_BUILD_INFO w;
     log := log w |}.

(** [forge.random.getBytes(32, (err, iv) => ...)]: the callback runs later,
    so an exception of [createCipher] or [cipher.start] is not turned into
    a rejection. *)
Definition prepareCipher (key : option json) : M (Cipher * string) :=
  _ <- emit (GetBytes 32) ;;
  fun w =>
    match random_error E (rng_pos w) with
    | Some err => (Rejected err, w)
    | None =>
        let iv := random_bytes (rng_pos w) 32 in
        match forge_key E key with
        | Some k =>
            (Resolved ({| cipher_key := k; cipher_iv := iv |}, iv), advance 32 w)
        | None => (Unsettled InvalidKey, advance 32 w)
        end
    end.

(** ** The request handler *)

(** [_.defaults(_.clone(options), { beforeRender: () => Promise.resolve({}) })].
    [None] is a [beforeRender] left [undefined]; one that is [null] is not
    among these options, [Calls.handler_with] has it. *)
Definition ops_beforeRender (options : Options) : hook :=
  match beforeRender options with
  | Some h => h
  | None => fun _ _ =>
      HookReturns (Resolved (Some {| configToInject := None;
                                     extraScripts := None;
                                     store := None |}))
  end.

(** [Promise.all] of two promises: the pair, or the rejection that comes
    first. *)
Definition Promise_all {A B} (p : outcome A) (q : outcome B) : outcome (A * B) :=
  match p, q with
  | Resolved a, Resolved b => Resolved (a, b)
  | Rejected e1, Rejected e2 => Rejected (if hook_settles_first E then e1 else e2)
  | Rejected e, _ => Rejected e
  | _, Rejected e => Rejected e
  | Unsettled e, _ => Unsettled e
  | _, Unsettled e => Unsettled e
  end.

(** The optional server-side rendering: the elements built around
    [options.Application], and the head data of react-helmet. *)
Definition build_App (options : Options) (req : request) (ctx : Context)
    (st : option Store) : M (option element * option HelmetData) :=
  match Application options with
  | Some A =>
      let App := StaticRouter ctx (url req) (Element A) in
      let App := match st with Some s => Provider s App | None => App end in
      _ <- emit RenderStatic ;;
      ret (Some App, Some (Helmet_renderStatic E))
  | None => ret (None, None)
  end.

(** [configToInject || sanitizedConfig] *)
Definition CONFIG (configToInject : option json) : json :=
  match configToInject with
  | Some c => if truthy c then c else sanitizedConfig
  | None => sanitizedConfig
  end.

(** [store ? store.getState() : null] *)
Definition ISTATE (st : option Store) : M json :=
  match st with
  | Some s => match getState s with inl e => throw e | inr j => ret j end
  | None => ret JNull
  end.

Definition payload (configToInject : option json) (istate : json) : json :=
  JObj [("CONFIG", CONFIG configToInject); ("ISTATE", istate)].

(** [cipher.update(createBuffer(JSON.stringify(data), 'utf8'))],
    [cipher.finish()], and the base64 of [iv] followed by the output. *)
Definition INJ (cipher : Cipher) (iv : string) (data : json) : string :=
  Base64.encode64
    (iv ++ aes_cbc E (cipher_key cipher) (cipher_iv cipher)
               (Base64.encodeUtf8 (stringify data))).

(** Lines 133 to 176: the status, and the page sent. *)
Definition respond (webpackConfig : WebpackConfig) (ctx : Context)
    (helmet : option HelmetData) (App : option element) (inj : string)
    (scripts : option (list string)) : M unit :=
  _ <- match status ctx with
       | Some code => if Z.eqb code 0 then ret tt else emit (Status code)
       | None => ret tt
       end ;;
  emit (Send (Page.page helmet (publicPath (output webpackConfig))
                ctx App inj scripts)).

(** [const context = { chunks: [], splits: {} };] *)
Definition new_context : Context :=
  {| status := None; chunks := []; splits := JObj [] |}.

(** What the handler does once [Promise.all] has resolved. *)
Definition render (webpackConfig : WebpackConfig) (options : Options)
    (req : request) (data : RenderData) (cipher : Cipher) (iv : string) : M unit :=
  let ctx := new_context in
  ah <- build_App options req ctx (store data) ;;
  istate <- ISTATE (store data) ;;
  let inj := INJ cipher iv (payload (configToInject data) istate) in
  respond webpackConfig ctx (snd ah) (fst ah) inj (extraScripts data).

Definition is_null (j : json) : bool :=
  match j with JNull => true | _ => false end.

(** [async (req, res) => { ... }].  The elements of the array handed to
    [Promise.all] are evaluated in order: the call of the hook, then
    [buildInfo.key], then the call of [prepareCipher].  The pattern that
    receives the result of the hook takes three properties of it. *)
Definition handler (webpackConfig : WebpackConfig) (options : Options)
    (buildInfo : json) (req : request) : M unit :=
  _ <- emit (BeforeRender req sanitizedConfig) ;;
  match ops_beforeRender options req sanitizedConfig with
  | HookThrows e => throw e
  | HookReturns p =>
      if is_null buildInfo then throw (TypeError "buildInfo.key")
      else
        fun w =>
          let (q, w') := prepareCipher (get "key" buildInfo) w in
          match Promise_all p q with
          | Resolved (Some data, (cipher, iv)) =>
              render webpackConfig options req data cipher iv w'
          | Resolved (None, _) => (Rejected (TypeError "configToInject"), w')
          | Rejected e => (Rejected e, w')
          | Unsettled e => (Unsettled e, w')
          end
  end.

(** ** [factory] *)

Definition set_TRU_BUILD_INFO (buildInfo : json) : M unit :=
  fun w => (Resolved tt,
            {| rng_pos := rng_pos w;
               TRU_BUILD_INFO := Some buildInfo;
               log := log w |}).

Definition factory (webpackConfig : WebpackConfig) (options : Options)
  : M (request -> M unit) :=
  buildInfo <- getBuildInfo (context webpackConfig) ;;
  _ <- set_TRU_BUILD_INFO buildInfo ;;
  ret (handler webpackConfig options buildInfo).

End Renderer.

(* ================================================================= *)
(** * A platform to run examples on *)

Module Sample.

(** A stand-in for the cipher: every byte of the data is xored with the
    first byte of the key and the first byte of the IV. *)
Definition first_byte (s : string) : N :=
  match s with String c _ => N_of_ascii c | EmptyString => 0%N end.

Fixpoint xor_bytes (mask : N) (data : string) : string :=
  match data with
  | EmptyString => EmptyString
  | String c rest =>
      String (ascii_of_N (N.lxor mask (N_of_ascii c))) (xor_bytes mask rest)
  end.

Definition toy_cbc (key iv data : string) : string :=
  xor_bytes (N.lxor (first_byte key) (first_byte iv)) data.

Definition key32 : string := "0123456789abcdef0123456789abcdef".

(** The keys given as strings: 16, 24 or 32 bytes. *)
Definition string_key (key : option json) : option string :=
  match key with
  | Some (JStr k) =>
      let n := String.length k in
      if Nat.eqb n 16 || Nat.eqb n 24 || Nat.eqb n 32 then Some k else None
  | _ => None
  end.

Definition build_info_text : string :=
  "{" ++ Str.dq ++ "timestamp" ++ Str.dq ++ ":" ++ Str.dq ++ "2019-11-29"
      ++ Str.dq ++ "," ++ Str.dq ++ "key" ++ Str.dq ++ ":" ++ Str.dq ++ key32
      ++ Str.dq ++ "}".

Definition build_info : json :=
  JObj [("timestamp", JStr "2019-11-29"); ("key", JStr key32)].

Definition the_config : json :=
  JObj [("API", JStr "https://api.example.com"); ("SECRET", JStr "s3cr3t")].

(** The build-info file exists under [/app] and holds valid JSON; under
    [/broken] it exists and does not; anywhere else it is missing. *)
Definition env : Env :=
  {| config := the_config;
     path_resolve := fun dir name => dir ++ "/" ++ name;
     fs_readFile := fun path =>
       if String.eqb path "/app/.build-info" then inr build_info_text
       else if String.eqb path "/broken/.build-info" then inr "{timestamp:"
       else inl (FsError "ENOENT" path);
     JSON_parse := fun text =>
       if String.eqb text build_info_text then Some build_info else None;
     random_stream := fun n => ascii_of_nat (65 + Nat.modulo n 26);
     random_error := fun _ => None;
     forge_key := string_key;
     aes_cbc := toy_cbc;
     Helmet_renderStatic := {| title := "<title>Sample</title>"; meta := EmptyString |};
     hook_settles_first := true |}.

Definition webpackConfig (dir : string) : WebpackConfig :=
  {| context := dir; output := {| publicPath := "/test/public/path/" |} |}.

Definition world0 : world :=
  {| rng_pos := 0; TRU_BUILD_INFO := None; log := [] |}.

Definition req : request := {| url := "/" |}.

(** No application to render, no hook. *)
Definition plain_options : Options :=
  {| Application := None; beforeRender := None; maxSsrRounds := None |}.

Definition extra : string :=
  "<script src=" ++ Str.dq ++ "/extra.js" ++ Str.dq ++ "></script>".

(** A hook that hands out one extra script. *)
Definition hook_extra : hook := fun _ _ =>
  HookReturns (Resolved (Some {| configToInject := None;
                                 extraScripts := Some [extra];
                                 store := None |})).

(** A hook whose promise rejects. *)
Definition hook_rejects : hook := fun _ _ =>
  HookReturns (Rejected (UserError "no session")).


(** An application to render, and a round limit of zero. *)
Definition round_limit_zero : Options :=
  {| Application := Some "Scene"; beforeRender := None; maxSsrRounds := Some 0 |}.

Definition options_extra : Options :=
  {| Application := None; beforeRender := Some hook_extra; maxSsrRounds := None |}.

Definition options_rejecting : Options :=
  {| Application := None; beforeRender := Some hook_rejects; maxSsrRounds := None |}.

(** A context with one chunk the manifest has, and one it has not. *)
Definition context_two_chunks : Context :=
  {| status := None;
     chunks := ["test-chunk-a"; "test-chunk-c"];
     splits := JObj [] |}.

End Sample.

(* ================================================================= *)
(** * Runs of the handler *)

(** The world after some more calls were logged. *)
Definition logged (w : world) (evs : list event) : world :=
  {| rng_pos := rng_pos w;
     TRU_BUILD_INFO := TRU_BUILD_INFO w;
     log := log w ++ evs |}.

(** What the optional rendering contributes to a run, as a function of
    [options.Application] alone. *)
Definition ssr_events (options : Options) : list event :=
  match Application options with Some _ => [RenderStatic] | None => [] end.

Definition ssr_helmet (E : Env) (options : Options) : option HelmetData :=
  match Application options with
  | Some _ => Some (Helmet_renderStatic E)
  | None => None
  end.

Definition ssr_App (options : Options) (req : request) (st : option Store)
  : option element :=
  match Application options with
  | Some A =>
      let App := StaticRouter new_context (url req) (Element A) in
      Some (match st with Some s => Provider s App | None => App end)
  | None => None
  end.

(** The events of a request that goes through. *)
Definition success_events (E : Env) (webpackConfig : WebpackConfig)
    (options : Options) (req : request) (data : RenderData) (inj : string)
  : list event :=
  [BeforeRender req (sanitizedConfig E); GetBytes 32] ++ ssr_events options ++
  [Send (Page.page (ssr_helmet E options) (publicPath (output webpackConfig))
           new_context (ssr_App options req (store data)) inj
           (extraScripts data))].

(** The ways a request can fail: the hook, the wait for the hook and the
    cipher, the state of the store.  Whichever it is, the promise of the
    handler is rejected or left pending, and the only calls made are to the
    hook, to the random source and to react-helmet. *)
Definition failure_events (options : Options) (evs : list event) : Prop :=
  evs = [] \/ evs = [GetBytes 32] \/ evs = GetBytes 32 :: ssr_events options.

(** The requests a server hands to the handler, one after the other; the
    world they leave. *)
Fixpoint serve (h : request -> M unit) (reqs : list request) (w : world) : world :=
  match reqs with
  | [] => w
  | r :: rest => serve h rest (snd (h r w))
  end.

(** The platform with another [config] module, all the rest the same. *)
Definition with_config (c : json) (E : Env) : Env :=
  {| config := c;
     path_resolve := path_resolve E;
     fs_readFile := fs_readFile E;
     JSON_parse := JSON_parse E;
     random_stream := random_stream E;
     random_error := random_error E;
     forge_key := forge_key E;
     aes_cbc := aes_cbc E;
     Helmet_renderStatic := Helmet_renderStatic E;
     hook_settles_first := hook_settles_first E |}.

(* ================================================================= *)
(** * The statements of the specification that the handler is held against *)

Module Spec.

(** The text of [doc] after the first occurrence of [marker]. *)
Definition after (doc marker : string) : option string :=
  match Str.indexOf doc marker with
  | Some i =>
      let from := i + String.length marker in
      Some (String.substring from (String.length doc - from) doc)
  | None => None
  end.

Definition is_Next (ev : event) : bool :=
  match ev with Next _ => true | _ => false end.

Definition is_Send (ev : event) : bool :=
  match ev with Send _ => true | _ => false end.

(** How often the error callback was called, how often a page was sent. *)
Definition error_reports (evs : list event) : nat := List.length (filter is_Next evs).
Definition pages_sent (evs : list event) : nat := List.length (filter is_Send evs).

(** "When [maxSsrRounds = 0] no server-side rendering is attempted and the
    document holds the hydration scaffold only": react-helmet is not asked
    for the head of a rendered tree, and the root element of any page sent
    is empty. *)
Definition no_rendering_at_round_limit_zero (options : Options)
    (evs : list event) : Prop :=
  maxSsrRounds options = Some 0 ->
  ~ In RenderStatic evs /\
  forall body, In (Send body) evs ->
               Str.includes body (Page.root_div EmptyString) = true.




(** "Every extra script appears after the main script tag." *)
Definition extras_follow_main (publicPath : string) (scripts : list string)
    (doc : string) : Prop :=
  forall s,
    In s scripts ->
    exists rest,
      after doc (Page.main_script publicPath) = Some rest /\
      Str.includes rest s = true.

(** "On an internal failure the error callback is called exactly once, and
    no page is sent." *)
Definition failure_reported_once (o : outcome unit) (evs : list event) : Prop :=
  settled_ok o = false -> error_reports evs = 1 /\ pages_sent evs = 0.

End Spec.


(* ================================================================= *)
(** * The options of the dropdown ([shared/components/NewDropdown/utils.js]) *)

Module Dropdown.

Local Open Scope Z_scope.

(** An option is a string, or an object with a [value] and possibly a
    [name]; [None] is a [name] left [undefined]. *)
Inductive item : Type :=
| Text (s : string)
| Object (name : option string) (value : string).

(** [optionNameValue]: the array [[option.name, option.value]]. *)
Definition optionNameValue (opt : item) : option string * string :=
  match opt with
  | Text s => (Some s, s)
  | Object name value => (name, value)
  end.

Definition optionName (opt : item) : string :=
  match opt with
  | Text s => s
  | Object None value => value
  | Object (Some name) _ => name
  end.

Definition optionValue (opt : item) : string :=
  match opt with
  | Text s => s
  | Object _ value => value
  end.

(** The optional [filter] argument; [!filter || filter(item)]. *)
Definition passes (filter : option (item -> bool)) (it : item) : bool :=
  match filter with
  | Some f => f it
  | None => true
  end.

(** The loop of [Array.prototype.findIndex] and of lodash's [baseFindIndex]:
    the index of the first element that satisfies the predicate, counted from
    [index] for the head of the list, or [-1]. *)
Fixpoint findIndex_at {A} (predicate : A -> bool) (array : list A) (index : Z) : Z :=
  match array with
  | [] => -1
  | x :: rest =>
      if predicate x then index else findIndex_at predicate rest (index + 1)
  end.

(** The same loop from the right: the index of the last element that
    satisfies the predicate, or [-1]. *)
Fixpoint findLastIndex_at {A} (predicate : A -> bool) (array : list A) (index : Z) : Z :=
  match array with
  | [] => -1
  | x :: rest =>
      let later := findLastIndex_at predicate rest (index + 1) in
      if 0 <=? later then later
      else if predicate x then index else -1
  end.

(** [array.findIndex(predicate)]. *)
Definition Array_findIndex {A} (array : list A) (predicate : A -> bool) : Z :=
  findIndex_at predicate array 0.

Definition length_of {A} (array : list A) : Z := Z.of_nat (List.length array).

(** lodash [findIndex(array, predicate, fromIndex)]; [None] is no
    [fromIndex].  A negative [fromIndex] counts from the end. *)
Definition findIndex {A} (array : list A) (predicate : A -> bool)
    (fromIndex : option Z) : Z :=
  let length := length_of array in
  if length =? 0 then -1
  else
    let index := match fromIndex with Some i => i | None => 0 end in
    let index := if index <? 0 then Z.max (length + index) 0 else index in
    findIndex_at predicate (skipn (Z.to_nat index) array) index.

(** lodash [findLastIndex(array, predicate, fromIndex)]. *)
Definition findLastIndex {A} (array : list A) (predicate : A -> bool)
    (fromIndex : option Z) : Z :=
  let length := length_of array in
  if length =? 0 then -1
  else
    let index :=
      match fromIndex with
      | Some i => if i <? 0 then Z.max (length + i) 0 else Z.min i (length - 1)
      | None => length - 1
      end in
    findLastIndex_at predicate (firstn (Z.to_nat (index + 1)) array) 0.

(** The arrow function of [findOptionIndex]:
    [optionValue(item) === value && (!filter || filter(item))]. *)
Definition is_current (value : string) (filter : option (item -> bool)) (it : item)
  : bool :=
  String.eqb (optionValue it) value && passes filter it.

Definition findOptionIndex (value : string) (options : list item)
    (filter : option (item -> bool)) : Z :=
  Array_findIndex options (is_current value filter).

Definition findNextOptionIndex (value : string) (options : list item)
    (filter : option (item -> bool)) : Z :=
  let index := findOptionIndex value options filter in
  if (0 <=? index) && (index + 1 <? length_of options) then
    let index := index + 1 in
    match filter with
    | Some f => findIndex options f (Some index)
    | None => index
    end
  else -1.

(** [lookup] of [searchOption]:
    [optionName(item).startsWith(search) && (!filter || filter(item))]. *)
Definition matches (search : string) (filter : option (item -> bool)) (it : item)
  : bool :=
  String.prefix search (optionName it) && passes filter it.

(** The first three statements of [searchOption]: where the search starts. *)
Definition search_start (search : string) (options : list item) (value : string)
    (filter : option (item -> bool)) : Z :=
  let startIndex := findOptionIndex value options filter in
  let startIndex :=
    if Nat.eqb (String.length search) 1 then startIndex + 1 else startIndex in
  if (startIndex <? 0) || (startIndex =? length_of options) then 0
  else startIndex.

Definition searchOption (search : string) (options : list item) (value : string)
    (filter : option (item -> bool)) : Z :=
  let startIndex := search_start search options value filter in
  let lookup := matches search filter in
  let index := findIndex options lookup (Some startIndex) in
  if (index <? 0) && (0 <? startIndex) then findIndex options lookup None
  else index.

Definition findPrevOptionIndex (value : string) (options : list item)
    (filter : option (item -> bool)) : Z :=
  let index := findOptionIndex value options filter - 1 in
  let index :=
    match filter with
    | Some f => if 0 <=? index then findLastIndex options f (Some index) else index
    | None => index
    end in
  if 0 <=? index then index else -1.

(** [options[i]]; [None] is [undefined]. *)
Definition at_index {A} (array : list A) (i : Z) : option A :=
  if i <? 0 then None else nth_error array (Z.to_nat i).

(** No element of the array at an index from [lo] up to, and without, [hi]
    satisfies the predicate. *)
Definition none_in {A} (array : list A) (predicate : A -> bool) (lo hi : Z) : Prop :=
  forall k x, lo <= k < hi -> at_index array k = Some x -> predicate x = false.

(** The element at index [r] exists and satisfies the predicate. *)
Definition hit {A} (array : list A) (predicate : A -> bool) (r : Z) : Prop :=
  exists x, at_index array r = Some x /\ predicate x = true.

(** Options to try things on. *)
Definition fruits : list item :=
  [Text "apple"; Object (Some "Avocado") "avocado"; Object None "banana";
   Text "blueberry"; Object (Some "Cherry") "cherry"].

Definition not_b : item -> bool :=
  fun it => negb (String.prefix "b" (optionValue it)).

End Dropdown.

(* ================================================================= *)
(** * Counting the calls of a run *)

Module Calls.

Definition is_BeforeRender (ev : event) : bool :=
  match ev with BeforeRender _ _ => true | _ => false end.

Definition is_GetBytes (ev : event) : bool :=
  match ev with GetBytes _ => true | _ => false end.

Definition is_Status (ev : event) : bool :=
  match ev with Status _ => true | _ => false end.

Definition is_Send (ev : event) : bool :=
  match ev with Send _ => true | _ => false end.

Definition count (kind : event -> bool) (evs : list event) : nat :=
  List.length (filter kind evs).

(** A hook that throws before it returns a promise. *)
Definition hook_throws : hook := fun _ _ => HookThrows (UserError "no hook today").

Definition options_throwing : Options :=
  {| Application := Some "Scene"; beforeRender := Some hook_throws;
     maxSsrRounds := None |}.

Definition options_scene : Options :=
  {| Application := Some "Scene"; beforeRender := None; maxSsrRounds := None |}.

(** What [options.beforeRender] can hold: nothing ([undefined]), a function,
    or a value that cannot be called, such as the [null] that the comment of
    [launch] gives as its default. *)
Inductive beforeRender_value : Type :=
| NoHook
| NotCallable
| Hook (h : hook).

(** The handler for any value of [options.beforeRender].  [_.defaults] fills
    in a property that is [undefined], and no other: a value that cannot be
    called stays, and [ops.beforeRender(req, sanitizedConfig)], the first
    element of the array of line 85, throws a [TypeError] before anything is
    called. *)
Definition handler_with (E : Env) (webpackConfig : WebpackConfig)
    (App : option component) (hook_value : beforeRender_value)
    (rounds : option nat) (buildInfo : json) (req : request) : M unit :=
  match hook_value with
  | NotCallable => throw (TypeError "ops.beforeRender is not a function")
  | NoHook =>
      handler E webpackConfig
        {| Application := App; beforeRender := None; maxSsrRounds := rounds |}
        buildInfo req
  | Hook h =>
      handler E webpackConfig
        {| Application := App; beforeRender := Some h; maxSsrRounds := rounds |}
        buildInfo req
  end.

(** The characters of a string. *)
Definition chars (s : string) : list ascii := list_ascii_of_string s.

(** The characters [serialize-javascript] writes as escapes. *)
Definition unsafe_char (c : ascii) : bool :=
  let n := N_of_ascii c in
  N.eqb n 60 || N.eqb n 62 || N.eqb n 47.

End Calls.

(* ================================================================= *)
(** * The port of the server ([server/index.js]) *)

Module Server.

(** A JavaScript number: the finite ones are the integers here. *)
Inductive number : Type :=
| Finite (z : Z)
| NaN
| Infinity (negative : bool).

(** The values a port is given as, and [normalizePort] answers. *)
Inductive value : Type :=
| Undefined
| Boolean (b : bool)
| Number (n : number)
| String_ (s : string).

(** Truthiness, as [||] and [!] test it. *)
Definition truthy (v : value) : bool :=
  match v with
  | Undefined => false
  | Boolean b => b
  | Number (Finite z) => negb (Z.eqb z 0)
  | Number NaN => false
  | Number (Infinity _) => true
  | String_ s => negb (String.eqb s EmptyString)
  end.

(** [a || b] *)
Definition or_else (a b : value) : value := if truthy a then a else b.

(** [`${v}`] *)
Definition toString (v : value) : string :=
  match v with
  | Undefined => "undefined"
  | Boolean true => "true"
  | Boolean false => "false"
  | Number (Finite z) => Json.string_of_Z z
  | Number NaN => "NaN"
  | Number (Infinity false) => "Infinity"
  | Number (Infinity true) => "-Infinity"
  | String_ s => s
  end.

Definition isFinite (v : value) : bool :=
  match v with Number (Finite _) => true | _ => false end.

Definition isNumber (v : value) : bool :=
  match v with Number _ => true | _ => false end.

Definition isString (v : value) : bool :=
  match v with String_ _ => true | _ => false end.

Section Port.

(** How the platform reads a string as a number ([+string]). *)
Variable string_toNumber : string -> number.

(** [_.toNumber(value)]: always a number. *)
Definition toNumber (v : value) : number :=
  match v with
  | Undefined => NaN
  | Boolean true => Finite 1
  | Boolean false => Finite 0
  | Number n => n
  | String_ s => string_toNumber s
  end.

Definition normalizePort (v : value) : value :=
  let port := Number (toNumber v) in
  if isFinite port then port
  else if negb (isNumber port) then v
  else Boolean false.

(** [ops.port = normalizePort(ops.port || process.env.PORT || 3000)] *)
Definition launch_port (ops_port env_PORT : value) : value :=
  normalizePort (or_else (or_else ops_port env_PORT) (Number (Finite 3000))).

End Port.

(** The error an HTTP server emits: the fields the handler reads. *)
Record server_error : Type := { syscall : string; code : string }.

(** What the handler of ['error'] does: it throws the error again, or logs
    one line with [ops.logger.error] and ends the process. *)
Inductive reaction : Type :=
| Throws (error : server_error)
| LogsAndExits (line : string) (exit_code : Z).

(** [httpServer.on('error', (error) => { ... })], for the port kept in
    [ops.port]. *)
Definition on_error (ops_port : value) (error : server_error) : reaction :=
  if negb (String.eqb (syscall error) "listen") then Throws error
  else
    let bind :=
      if isString ops_port then "Pipe " ++ toString ops_port
      else "Port " ++ toString ops_port in
    if String.eqb (code error) "EACCES" then
      LogsAndExits (bind ++ " requires elevated privileges") 1
    else if String.eqb (code error) "EADDRINUSE" then
      LogsAndExits (bind ++ " is already in use") 1
    else Throws error.

(** A reading of strings that knows one port. *)
Definition read_8080 (s : string) : number :=
  if String.eqb s "8080" then Finite 8080 else NaN.

End Server.
(* ================================================================= *)
(** * Facts about strings *)

Module StrFacts.
Import Str.

Lemma app_assoc (a b c : string) : (a ++ b) ++ c = a ++ (b ++ c).
Proof. induction a as [|x a IH]; simpl; [reflexivity | now rewrite IH]. Qed.

Lemma app_nil_r (a : string) : a ++ EmptyString = a.
Proof. induction a as [|x a IH]; simpl; [reflexivity | now rewrite IH]. Qed.

Lemma join0_cons (x : string) (l : list string) : join0 (x :: l) = x ++ join0 l.
Proof.
  unfold join0. destruct l as [|y l]; simpl.
  - now rewrite app_nil_r.
  - reflexivity.
Qed.

Lemma join0_app (l1 l2 : list string) : join0 (l1 ++ l2) = join0 l1 ++ join0 l2.
Proof.
  induction l1 as [|x l1 IH].
  - reflexivity.
  - change ((x :: l1) ++ l2)%list with (x :: (l1 ++ l2))%list.
    rewrite !join0_cons, IH. now rewrite app_assoc.
Qed.

End StrFacts.

(* ================================================================= *)
(** * The library functions and the template, on examples *)

Example stringify_payload :
  stringify (JObj [("CONFIG", JObj [("A", JNum 1); ("B", JArr [JBool true; JNull])]);
                   ("ISTATE", JStr "x")])
  = "{" ++ Str.dq ++ "CONFIG" ++ Str.dq ++ ":{" ++ Str.dq ++ "A" ++ Str.dq ++ ":1,"
        ++ Str.dq ++ "B" ++ Str.dq ++ ":[true,null]}," ++ Str.dq ++ "ISTATE" ++ Str.dq
        ++ ":" ++ Str.dq ++ "x" ++ Str.dq ++ "}".
Proof. reflexivity. Qed.

Example stringify_escapes :
  stringify (JStr ("a" ++ Str.dq ++ Str.nl ++ "\b"))
  = Str.dq ++ "a\" ++ Str.dq ++ "\n\\b" ++ Str.dq.
Proof. reflexivity. Qed.

Example serializeJs_markup :
  serializeJs (JObj [("a", JStr "<p>x</p>")])
  = "{" ++ Str.dq ++ "a" ++ Str.dq ++ ":" ++ Str.dq
        ++ "\u003Cp\u003Ex\u003C\u002Fp\u003E" ++ Str.dq ++ "}".
Proof. reflexivity. Qed.

Example encode64_three : Base64.encode64 "Man" = "TWFu".
Proof. reflexivity. Qed.

Example encode64_two : Base64.encode64 "Ma" = "TWE=".
Proof. reflexivity. Qed.

Example encode64_one : Base64.encode64 "M" = "TQ==".
Proof. reflexivity. Qed.

Example encode64_text : Base64.encode64 "Many hands" = "TWFueSBoYW5kcw==".
Proof. reflexivity. Qed.

Example encodeUtf8_latin1 :
  Base64.encodeUtf8 (String (ascii_of_nat 233) "t" ++ String (ascii_of_nat 233) EmptyString)
  = String (ascii_of_nat 195) (String (ascii_of_nat 169)
      (String "t" (String (ascii_of_nat 195) (String (ascii_of_nat 169) EmptyString)))).
Proof. reflexivity. Qed.

Example omit_SECRET :
  omit Sample.the_config "SECRET" = JObj [("API", JStr "https://api.example.com")].
Proof. reflexivity. Qed.

(** The template literal of [res.send], with its holes filled by hand. *)
Example page_of_the_template :
  Page.page (Some {| title := "<title>T</title>"; meta := "<meta name=m />" |})
    "/test/public/path/"
    {| status := None; chunks := ["a"; "b"];
       splits := JObj [("a", JStr "<p>x</p>")] |}
    (Some (Element "App")) "SU5K"
    (Some ["<script>one()</script>"; "<script>two()</script>"])
  =
  "<!DOCTYPE html>" ++ Str.nl ++
  "      <html>" ++ Str.nl ++
  "        <head>" ++ Str.nl ++
  "          <title>T</title>" ++ Str.nl ++
  "          <meta name=m />" ++ Str.nl ++
  "          <link" ++ Str.nl ++
  "            href=" ++ Str.dq ++ "/test/public/path/main.css" ++ Str.dq ++ Str.nl ++
  "            rel=" ++ Str.dq ++ "stylesheet" ++ Str.dq ++ Str.nl ++
  "          />" ++ Str.nl ++
  "          <link data-chunk=" ++ Str.dq ++ "a" ++ Str.dq ++ " href=" ++ Str.dq ++
    "/a.css" ++ Str.dq ++ " rel=" ++ Str.dq ++ "stylesheet" ++ Str.dq ++
    " /><link data-chunk=" ++ Str.dq ++ "b" ++ Str.dq ++ " href=" ++ Str.dq ++ "/b.css" ++
    Str.dq ++ " rel=" ++ Str.dq ++ "stylesheet" ++ Str.dq ++ " />" ++ Str.nl ++
  "          <link rel=" ++ Str.dq ++ "shortcut icon" ++ Str.dq ++ " href=" ++ Str.dq ++
    "/favicon.ico" ++ Str.dq ++ " />" ++ Str.nl ++
  "          <meta charset=" ++ Str.dq ++ "utf-8" ++ Str.dq ++ " />" ++ Str.nl ++
  "          <meta" ++ Str.nl ++
  "            content=" ++ Str.dq ++ "width=device-width,initial-scale=1.0" ++ Str.dq ++ Str.nl ++
  "            name=" ++ Str.dq ++ "viewport" ++ Str.dq ++ Str.nl ++
  "          />" ++ Str.nl ++
  "        </head>" ++ Str.nl ++
  "        <body>" ++ Str.nl ++
  "          <div id=" ++ Str.dq ++ "react-view" ++ Str.dq ++ ">[object Object]</div>" ++ Str.nl ++
  "          <script id=" ++ Str.dq ++ "inj" ++ Str.dq ++ " type=" ++ Str.dq ++
    "application/javascript" ++ Str.dq ++ ">" ++ Str.nl ++
  "            window.SPLITS = {" ++ Str.dq ++ "a" ++ Str.dq ++ ":" ++ Str.dq ++
    "\u003Cp\u003Ex\u003C\u002Fp\u003E" ++ Str.dq ++ "}" ++ Str.nl ++
  "            window.INJ=" ++ Str.dq ++ "SU5K" ++ Str.dq ++ Str.nl ++
  "          </script>" ++ Str.nl ++
  "          <script" ++ Str.nl ++
  "            src=" ++ Str.dq ++ "/test/public/path/polyfills.js" ++ Str.dq ++ Str.nl ++
  "            type=" ++ Str.dq ++ "application/javascript" ++ Str.dq ++ Str.nl ++
  "          ></script>" ++ Str.nl ++
  "          <script>one()</script><script>two()</script>" ++ Str.nl ++
  "          <script" ++ Str.nl ++
  "            src=" ++ Str.dq ++ "/test/public/path/main.js" ++ Str.dq ++ " " ++ Str.nl ++
  "            type=" ++ Str.dq ++ "application/javascript" ++ Str.dq ++ Str.nl ++
  "          ></script>" ++ Str.nl ++
  "        </body>" ++ Str.nl ++
  "      </html>".
Proof. vm_compute. reflexivity. Qed.

(* ================================================================= *)
(** * Facts about runs *)

Lemma logged_logged (w : world) (a b : list event) :
  logged (logged w a) b = logged w (a ++ b).
Proof. unfold logged; simpl. now rewrite <- app_assoc. Qed.

Lemma emit_logged (ev : event) (w : world) : emit ev w = (Resolved tt, logged w [ev]).
Proof. reflexivity. Qed.

Lemma random_bytes_length (E : Env) (count pos : nat) :
  String.length (random_bytes E pos count) = count.
Proof.
  revert pos. induction count as [|n IH]; intros pos; simpl.
  - reflexivity.
  - now rewrite IH.
Qed.

Lemma random_bytes_get (E : Env) (count pos i : nat) :
  i < count ->
  String.get i (random_bytes E pos count) = Some (random_stream E (pos + i)).
Proof.
  revert pos i. induction count as [|n IH]; intros pos i Hi.
  - lia.
  - destruct i as [|i]; simpl.
    + now rewrite Nat.add_0_r.
    + rewrite IH by lia. f_equal. f_equal. lia.
Qed.

(** The handler up to the wait for the hook and the cipher. *)
Lemma handler_unfold (E : Env) (webpackConfig : WebpackConfig)
    (options : Options) (buildInfo : json) (req : request) (w : world) :
  handler E webpackConfig options buildInfo req w =
  let w1 := logged w [BeforeRender req (sanitizedConfig E)] in
  match ops_beforeRender options req (sanitizedConfig E) with
  | HookThrows e => (Rejected e, w1)
  | HookReturns p =>
      if is_null buildInfo then (Rejected (TypeError "buildInfo.key"), w1)
      else
        match Promise_all E p (fst (prepareCipher E (get "key" buildInfo) w1)) with
        | Resolved (Some data, (cipher, iv)) =>
            render E webpackConfig options req data cipher iv
              (snd (prepareCipher E (get "key" buildInfo) w1))
        | Resolved (None, _) =>
            (Rejected (TypeError "configToInject"),
             snd (prepareCipher E (get "key" buildInfo) w1))
        | Rejected e => (Rejected e, snd (prepareCipher E (get "key" buildInfo) w1))
        | Unsettled e => (Unsettled e, snd (prepareCipher E (get "key" buildInfo) w1))
        end
  end.
Proof.
  unfold handler, bind. rewrite emit_logged. cbv zeta.
  destruct (ops_beforeRender options req (sanitizedConfig E)) as [e|p];
    [reflexivity|].
  destruct (is_null buildInfo); [reflexivity|].
  destruct (prepareCipher E (get "key" buildInfo)
              (logged w [BeforeRender req (sanitizedConfig E)])) as [q w'].
  reflexivity.
Qed.

Lemma prepareCipher_unfold (E : Env) (key : option json) (w : world)
    (evs : list event) :
  prepareCipher E key (logged w evs) =
  match random_error E (rng_pos w) with
  | Some err => (Rejected err, logged w (evs ++ [GetBytes 32]))
  | None =>
      let iv := random_bytes E (rng_pos w) 32 in
      let w' := {| rng_pos := rng_pos w + 32;
                   TRU_BUILD_INFO := TRU_BUILD_INFO w;
                   log := log w ++ evs ++ [GetBytes 32] |} in
      match forge_key E key with
      | Some k => (Resolved ({| cipher_key := k; cipher_iv := iv |}, iv), w')
      | None => (Unsettled InvalidKey, w')
      end
  end.
Proof.
  unfold prepareCipher, bind. rewrite emit_logged, logged_logged. simpl rng_pos.
  destruct (random_error E (rng_pos w)); [reflexivity|].
  destruct (forge_key E key); reflexivity.
Qed.

(** When the hook resolves, the random source answers, the build key is one
    the cipher takes and the store hands out its state, the request goes
    through, and these are its events. *)
Lemma handler_success (E : Env) (webpackConfig : WebpackConfig)
    (options : Options) (buildInfo : json) (req : request) (w : world)
    (data : RenderData) (key : string) (istate : json) :
  ops_beforeRender options req (sanitizedConfig E) = HookReturns (Resolved (Some data)) ->
  random_error E (rng_pos w) = None ->
  is_null buildInfo = false ->
  forge_key E (get "key" buildInfo) = Some key ->
  (forall w0, ISTATE (store data) w0 = (Resolved istate, w0)) ->
  let iv := random_bytes E (rng_pos w) 32 in
  let inj := INJ E {| cipher_key := key; cipher_iv := iv |} iv
               (payload E (configToInject data) istate) in
  handler E webpackConfig options buildInfo req w =
  (Resolved tt,
   {| rng_pos := rng_pos w + 32;
      TRU_BUILD_INFO := TRU_BUILD_INFO w;
      log := log w ++ success_events E webpackConfig options req data inj |}).
Proof.
  intros Hhook Hrng Hnull Hkey Hstate iv inj.
  rewrite handler_unfold. cbv zeta.
  rewrite Hhook, Hnull, prepareCipher_unfold, Hrng. cbv zeta. rewrite Hkey.
  cbn [Promise_all fst snd].
  unfold render, bind, build_App, respond, success_events, ssr_events,
    ssr_helmet, ssr_App.
  destruct (Application options) as [A|]; unfold bind, ret;
    rewrite ?emit_logged, Hstate; cbn [status new_context fst snd];
    rewrite ?emit_logged; unfold bind; rewrite ?emit_logged;
    unfold logged, advance; simpl; rewrite <- ?app_assoc; reflexivity.
Qed.

(** [ISTATE] does not touch the world. *)
Lemma ISTATE_cases (st : option Store) :
  (exists istate, forall w, ISTATE st w = (Resolved istate, w)) \/
  (exists e, forall w, ISTATE st w = (Rejected e, w)).
Proof.
  destruct st as [[[e|j]]|]; simpl.
  - right. exists e. reflexivity.
  - left. exists j. reflexivity.
  - left. exists JNull. reflexivity.
Qed.

Lemma handler_cases (E : Env) (webpackConfig : WebpackConfig)
    (options : Options) (buildInfo : json) (req : request) (w : world) :
  (exists data key istate,
      ops_beforeRender options req (sanitizedConfig E)
        = HookReturns (Resolved (Some data)) /\
      random_error E (rng_pos w) = None /\
      is_null buildInfo = false /\
      forge_key E (get "key" buildInfo) = Some key /\
      (forall w0, ISTATE (store data) w0 = (Resolved istate, w0)))
  \/
  (exists e evs,
      (fst (handler E webpackConfig options buildInfo req w) = Rejected e \/
       fst (handler E webpackConfig options buildInfo req w) = Unsettled e) /\
      log (snd (handler E webpackConfig options buildInfo req w)) =
        (log w ++ BeforeRender req (sanitizedConfig E) :: evs)%list /\
      failure_events options evs).
Proof.
  unfold failure_events. rewrite handler_unfold. cbv zeta.
  destruct (ops_beforeRender options req (sanitizedConfig E))
    as [e|p] eqn:Hhook.
  { (* the hook throws *)
    right. exists e, []. simpl. auto. }
  destruct (is_null buildInfo) eqn:Hnull.
  { (* the build info is null *)
    right. eexists _, []. simpl. auto. }
  rewrite prepareCipher_unfold. cbv zeta.
  destruct (random_error E (rng_pos w)) as [e'|] eqn:Hrng.
  { (* the random source fails *)
    right. destruct p as [[data|]|e|e]; simpl;
      eexists _, [GetBytes 32]; simpl; auto. }
  destruct (forge_key E (get "key" buildInfo)) as [key|] eqn:Hkey.
  2:{ (* the cipher does not start *)
      right. destruct p as [[data|]|e|e]; simpl;
        eexists _, [GetBytes 32]; simpl; auto. }
  destruct p as [[data|]|e|e]; simpl.
  - (* the hook resolves to an object *)
    destruct (ISTATE_cases (store data)) as [[istate Hst]|[e Hst]].
    { left. exists data, key, istate. auto. }
    right. exists e, (GetBytes 32 :: ssr_events options).
    unfold render, bind, build_App, ssr_events.
    destruct (Application options) as [A|]; unfold bind, ret;
      rewrite ?emit_logged, Hst; simpl; rewrite <- ?app_assoc; simpl; auto.
  - (* the hook resolves to no object *)
    right. eexists _, [GetBytes 32]. simpl. auto.
  - (* the hook rejects *)
    right. eexists _, [GetBytes 32]. simpl. auto.
  - (* the promise of the hook stays pending *)
    right. eexists _, [GetBytes 32]. simpl. auto.
Qed.

(* ================================================================= *)
(** * The envelope *)

(** The steps after the wait draw nothing from the random source. *)
Lemma render_rng (E : Env) (webpackConfig : WebpackConfig) (options : Options)
    (req : request) (data : RenderData) (cipher : Cipher) (iv : string)
    (w : world) :
  rng_pos (snd (render E webpackConfig options req data cipher iv w)) = rng_pos w.
Proof.
  unfold render, bind, build_App, respond.
  destruct (Application options) as [A|]; unfold bind, ret;
    rewrite ?emit_logged;
    destruct (ISTATE_cases (store data)) as [[istate Hst]|[e Hst]];
    rewrite Hst; reflexivity.
Qed.

(** A request draws 32 bytes, or none. *)
Lemma handler_rng (E : Env) (webpackConfig : WebpackConfig) (options : Options)
    (buildInfo : json) (req : request) (w : world) :
  rng_pos (snd (handler E webpackConfig options buildInfo req w)) = rng_pos w \/
  rng_pos (snd (handler E webpackConfig options buildInfo req w)) = rng_pos w + 32.
Proof.
  rewrite handler_unfold. cbv zeta.
  destruct (ops_beforeRender options req (sanitizedConfig E)) as [e|p];
    [left; reflexivity|].
  destruct (is_null buildInfo); [left; reflexivity|].
  rewrite prepareCipher_unfold. cbv zeta.
  destruct (random_error E (rng_pos w)) as [e'|];
    [destruct p as [[data|]|e|e]; left; reflexivity|].
  destruct (forge_key E (get "key" buildInfo)) as [key|];
    destruct p as [[data|]|e|e]; cbn [Promise_all fst snd];
    try (right; reflexivity).
  right. rewrite render_rng. reflexivity.
Qed.

(** The position in the random stream never moves back. *)
Lemma serve_rng (h : request -> M unit) (reqs : list request) :
  (forall r w, rng_pos w <= rng_pos (snd (h r w))) ->
  forall w, rng_pos w <= rng_pos (serve h reqs w).
Proof.
  intros Hstep. induction reqs as [|r rest IH]; intros w; simpl.
  - apply Nat.le_refl.
  - apply Nat.le_trans with (rng_pos (snd (h r w))); [apply Hstep | apply IH].
Qed.

(** C2.  For every request that goes through, the string injected as
    [window.INJ] is the base64 encoding of the IV followed by the AES-CBC
    output, under the key of the build info, of the UTF-8 encoded
    [JSON.stringify] of the payload.  The IV is drawn in that very request
    ([forge.random.getBytes(32)] is called once): it is the 32 bytes of the
    random stream at the current position.  The request leaves the position
    32 bytes further, and whatever requests follow, the position is never
    before that: no byte of the stream serves the IV of two requests. *)
Theorem envelope_is_base64_of_fresh_iv_and_ciphertext
    (E : Env) (webpackConfig : WebpackConfig) (options : Options)
    (buildInfo : json) (req : request) (w : world) :
  fst (handler E webpackConfig options buildInfo req w) = Resolved tt ->
  exists (data : RenderData) (key : string) (istate : json),
    ops_beforeRender options req (sanitizedConfig E)
      = HookReturns (Resolved (Some data)) /\
    forge_key E (get "key" buildInfo) = Some key /\
    ISTATE (store data) w = (Resolved istate, w) /\
    let iv := random_bytes E (rng_pos w) 32 in
    let inj :=
      Base64.encode64
        (iv ++ aes_cbc E key iv
                 (Base64.encodeUtf8
                    (stringify (JObj [("CONFIG", CONFIG E (configToInject data));
                                      ("ISTATE", istate)])))) in
    let w' := snd (handler E webpackConfig options buildInfo req w) in
    String.length iv = 32 /\
    (forall i, i < 32 -> String.get i iv = Some (random_stream E (rng_pos w + i))) /\
    log w' =
      (log w ++ [BeforeRender req (sanitizedConfig E); GetBytes 32]
             ++ ssr_events options
             ++ [Send (Page.page (ssr_helmet E options)
                         (publicPath (output webpackConfig)) new_context
                         (ssr_App options req (store data)) inj
                         (extraScripts data))])%list /\
    rng_pos w' = rng_pos w + 32 /\
    (forall later : list request,
        rng_pos w + 32 <=
        rng_pos (serve (handler E webpackConfig options buildInfo) later w')).
Proof.
  intros Hok.
  destruct (handler_cases E webpackConfig options buildInfo req w)
    as [(data & key & istate & Hhook & Hrng & Hnull & Hkey & Hst)
       |(e & evs & [Hfail|Hfail] & _)].
  - exists data, key, istate.
    rewrite (handler_success E webpackConfig options buildInfo req w
               data key istate Hhook Hrng Hnull Hkey Hst).
    cbv zeta. split; [exact Hhook|]. split; [exact Hkey|]. split; [apply Hst|].
    split; [apply random_bytes_length|].
    split; [intros i Hi; now apply random_bytes_get|].
    split; [reflexivity|]. split; [reflexivity|].
    intros later.
    match goal with
    | |- _ <= rng_pos (serve _ _ ?w1) =>
        change (rng_pos w + 32) with (rng_pos w1)
    end.
    apply serve_rng. intros r w0.
    destruct (handler_rng E webpackConfig options buildInfo r w0) as [H|H];
      rewrite H; lia.
  - rewrite Hfail in Hok. discriminate.
  - rewrite Hfail in Hok. discriminate.
Qed.

Lemma envelope_is_base64_of_fresh_iv_and_ciphertext_witness :
  exists (data : RenderData) (key : string) (istate : json),
    ops_beforeRender Sample.plain_options Sample.req (sanitizedConfig Sample.env)
      = HookReturns (Resolved (Some data)) /\
    forge_key Sample.env (get "key" Sample.build_info) = Some key /\
    ISTATE (store data) Sample.world0 = (Resolved istate, Sample.world0) /\
    let iv := random_bytes Sample.env (rng_pos Sample.world0) 32 in
    let inj :=
      Base64.encode64
        (iv ++ aes_cbc Sample.env key iv
                 (Base64.encodeUtf8
                    (stringify (JObj [("CONFIG", CONFIG Sample.env (configToInject data));
                                      ("ISTATE", istate)])))) in
    let w' := snd (handler Sample.env (Sample.webpackConfig "/app")
                     Sample.plain_options Sample.build_info Sample.req
                     Sample.world0) in
    String.length iv = 32 /\
    (forall i, i < 32 ->
       String.get i iv = Some (random_stream Sample.env (rng_pos Sample.world0 + i))) /\
    log w' =
      (log Sample.world0
         ++ [BeforeRender Sample.req (sanitizedConfig Sample.env); GetBytes 32]
         ++ ssr_events Sample.plain_options
         ++ [Send (Page.page (ssr_helmet Sample.env Sample.plain_options)
                     (publicPath (output (Sample.webpackConfig "/app"))) new_context
                     (ssr_App Sample.plain_options Sample.req (store data)) inj
                     (extraScripts data))])%list /\
    rng_pos w' = rng_pos Sample.world0 + 32 /\
    (forall later : list request,
        rng_pos Sample.world0 + 32 <=
        rng_pos (serve (handler Sample.env (Sample.webpackConfig "/app")
                          Sample.plain_options Sample.build_info) later w')).
Proof.
  apply (envelope_is_base64_of_fresh_iv_and_ciphertext
           Sample.env (Sample.webpackConfig "/app") Sample.plain_options
           Sample.build_info Sample.req Sample.world0).
  reflexivity.
Defined.

(* ================================================================= *)
(** * The page *)

(** C10.  Every request that goes through sends a whole page, once, whose
    inline script sets [window.SPLITS] to the serialized [splits] of the
    context of the request, which is the empty object, and [window.INJ] to
    the envelope.  This holds without [options.Application] too, and then
    nothing is rendered: react-helmet is not called, and the root element
    [react-view] is empty. *)
Theorem page_carries_splits_and_envelope
    (E : Env) (webpackConfig : WebpackConfig) (options : Options)
    (buildInfo : json) (req : request) (w : world)
    (data : RenderData) (key : string) (istate : json) :
  ops_beforeRender options req (sanitizedConfig E)
    = HookReturns (Resolved (Some data)) ->
  random_error E (rng_pos w) = None ->
  is_null buildInfo = false ->
  forge_key E (get "key" buildInfo) = Some key ->
  (forall w0, ISTATE (store data) w0 = (Resolved istate, w0)) ->
  let iv := random_bytes E (rng_pos w) 32 in
  let inj := INJ E {| cipher_key := key; cipher_iv := iv |} iv
               (payload E (configToInject data) istate) in
  let publicPath := publicPath (output webpackConfig) in
  let root := Page.root_markup (ssr_App options req (store data)) in
  let body :=
    Page.head_block (ssr_helmet E options) publicPath EmptyString ++
    Page.indent ++ Page.root_div root ++ Str.nl ++
    Page.indent ++ Page.inj_script (serializeJs (splits new_context)) inj ++ Str.nl ++
    Page.scripts_block publicPath (Page.extra_markup (extraScripts data)) in
  handler E webpackConfig options buildInfo req w =
    (Resolved tt,
     {| rng_pos := rng_pos w + 32;
        TRU_BUILD_INFO := TRU_BUILD_INFO w;
        log := log w ++ [BeforeRender req (sanitizedConfig E); GetBytes 32]
                     ++ ssr_events options ++ [Send body] |})
  /\ Page.inj_script (serializeJs (splits new_context)) inj
     = "<script id=" ++ Str.dq ++ "inj" ++ Str.dq ++ " type=" ++ Str.dq
         ++ "application/javascript" ++ Str.dq ++ ">" ++ Str.nl ++
       "            window.SPLITS = {}" ++ Str.nl ++
       "            window.INJ=" ++ Str.dq ++ inj ++ Str.dq ++ Str.nl ++
       "          </script>"
  /\ Str.startsWith body "<!DOCTYPE html>" = true
  /\ (exists before, body = before ++ "</html>")
  /\ (Application options = None ->
      ssr_events options = [] /\
      ssr_helmet E options = None /\
      root = EmptyString /\
      Page.root_div root = "<div id=" ++ Str.dq ++ "react-view" ++ Str.dq ++ "></div>").
Proof.
  intros Hhook Hrng Hnull Hkey Hst iv inj pp root body.
  split; [|split; [reflexivity|split; [reflexivity|split]]].
  - rewrite (handler_success E webpackConfig options buildInfo req w
               data key istate Hhook Hrng Hnull Hkey Hst).
    reflexivity.
  - exists (Page.head_block (ssr_helmet E options) pp EmptyString ++
            Page.indent ++ Page.root_div root ++ Str.nl ++
            Page.indent ++ Page.inj_script (serializeJs (splits new_context)) inj ++ Str.nl ++
            Page.indent ++ Page.polyfills_script pp ++ Str.nl ++
            Page.indent ++ Page.extra_markup (extraScripts data) ++ Str.nl ++
            Page.indent ++ Page.main_script pp ++ Str.nl ++
            "        </body>" ++ Str.nl ++ "      ").
    subst body. unfold Page.scripts_block, Page.page_end.
    rewrite !StrFacts.app_assoc. reflexivity.
  - intros HApp. subst root. unfold ssr_events, ssr_helmet, ssr_App.
    rewrite HApp. repeat split.
Qed.

Lemma page_carries_splits_and_envelope_witness :
  fst (handler Sample.env (Sample.webpackConfig "/app") Sample.plain_options
         Sample.build_info Sample.req Sample.world0) = Resolved tt.
Proof.
  assert (H := page_carries_splits_and_envelope
                 Sample.env (Sample.webpackConfig "/app") Sample.plain_options
                 Sample.build_info Sample.req Sample.world0
                 {| configToInject := None; extraScripts := None; store := None |}
                 Sample.key32 JNull
                 eq_refl eq_refl eq_refl eq_refl (fun _ => eq_refl)).
  cbv zeta in H. destruct H as [H _]. rewrite H. reflexivity.
Defined.

(** C8.  The page is a function of the values the template interpolates (the
    head data, the public path, the context with its chunk names and splits,
    the root element, the envelope, the extra scripts) and of nothing else:
    whatever the two worlds it runs in, the assembly resolves, logs the same
    calls to the transport layer and sends the same string, byte for byte. *)
Theorem assembly_is_deterministic
    (webpackConfig : WebpackConfig) (ctx : Context)
    (helmet : option HelmetData) (App : option element) (inj : string)
    (scripts : option (list string)) (w1 w2 : world) :
  exists (evs : list event) (doc : string),
    respond webpackConfig ctx helmet App inj scripts w1 = (Resolved tt, logged w1 evs) /\
    respond webpackConfig ctx helmet App inj scripts w2 = (Resolved tt, logged w2 evs) /\
    doc = Page.page helmet (publicPath (output webpackConfig)) ctx App inj scripts /\
    In (Send doc) evs /\
    (forall body, In (Send body) evs -> body = doc).
Proof.
  unfold respond, bind.
  destruct (status ctx) as [code|]; [destruct (Z.eqb code 0)|].
  - eexists _, _. simpl. repeat split; [left; reflexivity|].
    intros body [H|[]]. now inversion H.
  - eexists [Status code; _], _. rewrite !emit_logged, !logged_logged. simpl.
    repeat split; [right; left; reflexivity|].
    intros body [H|[H|[]]]; [discriminate | now inversion H].
  - eexists _, _. simpl. repeat split; [left; reflexivity|].
    intros body [H|[]]. now inversion H.
Qed.

(* ================================================================= *)
(** * Start-up *)

(** C7.  When the build-info file cannot be read, [getBuildInfo] rejects
    with the error of the file system (the file is missing), and so does the
    factory.  When the file is read and is not JSON, the [SyntaxError] of
    [JSON.parse] (the file is corrupt) is thrown from the callback of the
    read: the promise of [getBuildInfo] is never settled, and neither is the
    one of the factory.  Either way the factory yields no request handler,
    and [global.TRU_BUILD_INFO] is not set. *)
Theorem factory_needs_build_info
    (E : Env) (webpackConfig : WebpackConfig) (options : Options) (w : world) :
  let url := path_resolve E (context webpackConfig) ".build-info" in
  (forall err,
      fs_readFile E url = inl err ->
      getBuildInfo E (context webpackConfig) w = (Rejected err, w) /\
      factory E webpackConfig options w = (Rejected err, w)) /\
  (forall info,
      fs_readFile E url = inr info ->
      JSON_parse E info = None ->
      getBuildInfo E (context webpackConfig) w = (Unsettled (SyntaxError info), w) /\
      factory E webpackConfig options w = (Unsettled (SyntaxError info), w)).
Proof.
  intros url. split.
  - intros err Hread. unfold factory, bind, getBuildInfo. fold url.
    rewrite Hread. split; reflexivity.
  - intros info Hread Hparse. unfold factory, bind, getBuildInfo. fold url.
    rewrite Hread, Hparse. split; reflexivity.
Qed.

Lemma factory_needs_build_info_witness :
  settled_ok (fst (factory Sample.env (Sample.webpackConfig "/nowhere")
                     Sample.plain_options Sample.world0)) = false /\
  settled_ok (fst (factory Sample.env (Sample.webpackConfig "/broken")
                     Sample.plain_options Sample.world0)) = false.
Proof.
  split.
  - destruct (factory_needs_build_info Sample.env (Sample.webpackConfig "/nowhere")
                Sample.plain_options Sample.world0) as [Hmissing _].
    destruct (Hmissing (FsError "ENOENT" "/nowhere/.build-info") eq_refl) as [_ H].
    rewrite H. reflexivity.
  - destruct (factory_needs_build_info Sample.env (Sample.webpackConfig "/broken")
                Sample.plain_options Sample.world0) as [_ Hcorrupt].
    destruct (Hcorrupt "{timestamp:" eq_refl eq_refl) as [_ H].
    rewrite H. reflexivity.
Defined.

(** With a build-info file that parses, the factory does yield the handler,
    and publishes the build info. *)
Lemma factory_resolves
    (E : Env) (webpackConfig : WebpackConfig) (options : Options) (w : world)
    (info : string) (buildInfo : json) :
  fs_readFile E (path_resolve E (context webpackConfig) ".build-info") = inr info ->
  JSON_parse E info = Some buildInfo ->
  factory E webpackConfig options w =
    (Resolved (handler E webpackConfig options buildInfo),
     {| rng_pos := rng_pos w; TRU_BUILD_INFO := Some buildInfo; log := log w |}).
Proof.
  intros Hread Hparse. unfold factory, bind, getBuildInfo.
  rewrite Hread, Hparse. reflexivity.
Qed.

(* ================================================================= *)
(** * The secret of the configuration *)

Lemma lookup_filter_out (k : string) (props : list (string * json)) :
  lookup k (filter (fun kv => negb (String.eqb (fst kv) k)) props) = None.
Proof.
  induction props as [|[k' v] props IH]; simpl.
  - reflexivity.
  - destruct (String.eqb k' k) eqn:Hk; simpl.
    + exact IH.
    + rewrite String.eqb_sym, Hk. exact IH.
Qed.

Lemma omit_removes (j : json) (k : string) : get k (omit j k) = None.
Proof.
  destruct j; simpl; try reflexivity. apply lookup_filter_out.
Qed.

Lemma handler_with_config (E : Env) (c : json) (webpackConfig : WebpackConfig)
    (options : Options) (buildInfo : json) (req : request) (w : world) :
  omit c "SECRET" = omit (config E) "SECRET" ->
  handler (with_config c E) webpackConfig options buildInfo req w =
  handler E webpackConfig options buildInfo req w.
Proof.
  intros Hc.
  unfold handler, render, payload, INJ, CONFIG, sanitizedConfig.
  cbn [config with_config]. rewrite Hc. reflexivity.
Qed.

(** C9.  The hook is called with the configuration without its [SECRET]
    key; when the hook supplies no [configToInject], the [CONFIG] of the
    payload is that same object; and the run of the handler (its outcome,
    the calls it makes, the page it sends) is the same for two
    configurations that differ in [SECRET] only. *)
Theorem SECRET_never_leaves_the_server
    (E : Env) (webpackConfig : WebpackConfig) (options : Options)
    (buildInfo : json) (req : request) (w : world) :
  get "SECRET" (sanitizedConfig E) = None /\
  (exists evs,
      log (snd (handler E webpackConfig options buildInfo req w)) =
        (log w ++ BeforeRender req (omit (config E) "SECRET") :: evs)%list) /\
  (forall istate,
      get "CONFIG" (payload E None istate) = Some (omit (config E) "SECRET")) /\
  (forall c,
      omit c "SECRET" = omit (config E) "SECRET" ->
      handler (with_config c E) webpackConfig options buildInfo req w =
      handler E webpackConfig options buildInfo req w).
Proof.
  split; [apply omit_removes|]. split; [|split].
  - destruct (handler_cases E webpackConfig options buildInfo req w)
      as [(data & key & istate & Hhook & Hrng & Hnull & Hkey & Hst)
         |(e & evs & _ & Hlog & _)].
    + rewrite (handler_success E webpackConfig options buildInfo req w
                 data key istate Hhook Hrng Hnull Hkey Hst).
      eexists. unfold success_events. simpl. reflexivity.
    + exists evs. exact Hlog.
  - intros istate. reflexivity.
  - intros c Hc. now apply handler_with_config.
Qed.

Lemma SECRET_never_leaves_the_server_witness :
  handler (with_config (JObj [("API", JStr "https://api.example.com");
                              ("SECRET", JStr "another")]) Sample.env)
    (Sample.webpackConfig "/app") Sample.plain_options Sample.build_info
    Sample.req Sample.world0 =
  handler Sample.env (Sample.webpackConfig "/app") Sample.plain_options
    Sample.build_info Sample.req Sample.world0.
Proof.
  apply (SECRET_never_leaves_the_server Sample.env (Sample.webpackConfig "/app")
           Sample.plain_options Sample.build_info Sample.req Sample.world0).
  reflexivity.
Defined.

(* ================================================================= *)
(** * The round limit *)

(** C3 does not hold as the specification words it.  With an application
    and [maxSsrRounds = 0] the handler builds the element tree all the same
    and asks react-helmet for the head. *)
Lemma round_limit_zero_still_renders :
  ~ Spec.no_rendering_at_round_limit_zero Sample.round_limit_zero
      (log (snd (handler Sample.env (Sample.webpackConfig "/app")
                   Sample.round_limit_zero Sample.build_info Sample.req
                   Sample.world0))).
Proof.
  intros H. destruct (H eq_refl) as [Hno _]. apply Hno.
  vm_compute. right. right. left. reflexivity.
Qed.

Lemma handler_events (E : Env) (webpackConfig : WebpackConfig)
    (options : Options) (buildInfo : json) (req : request) (w : world) :
  (exists data inj,
      fst (handler E webpackConfig options buildInfo req w) = Resolved tt /\
      log (snd (handler E webpackConfig options buildInfo req w)) =
        (log w ++ success_events E webpackConfig options req data inj)%list) \/
  (exists e evs,
      (fst (handler E webpackConfig options buildInfo req w) = Rejected e \/
       fst (handler E webpackConfig options buildInfo req w) = Unsettled e) /\
      log (snd (handler E webpackConfig options buildInfo req w)) =
        (log w ++ BeforeRender req (sanitizedConfig E) :: evs)%list /\
      failure_events options evs).
Proof.
  destruct (handler_cases E webpackConfig options buildInfo req w)
    as [(data & key & istate & Hhook & Hrng & Hnull & Hkey & Hst)|Hfail].
  - left. exists data. eexists.
    rewrite (handler_success E webpackConfig options buildInfo req w
               data key istate Hhook Hrng Hnull Hkey Hst).
    split; reflexivity.
  - right. exact Hfail.
Qed.

(** C3, as the handler has it.  [maxSsrRounds] is never read: the run is the
    same for every value of it.  What decides is [options.Application]:
    without it react-helmet is not called and any page sent has an empty root
    element and an empty head; with it, a request that goes through has
    called react-helmet. *)
Theorem rendering_is_gated_by_Application_alone
    (E : Env) (webpackConfig : WebpackConfig) (App : option component)
    (h : option hook) (buildInfo : json) (req : request) (w : world) :
  (forall n m,
      handler E webpackConfig
        {| Application := App; beforeRender := h; maxSsrRounds := n |}
        buildInfo req w =
      handler E webpackConfig
        {| Application := App; beforeRender := h; maxSsrRounds := m |}
        buildInfo req w) /\
  (forall n evs,
      App = None ->
      log (snd (handler E webpackConfig
                  {| Application := App; beforeRender := h; maxSsrRounds := n |}
                  buildInfo req w)) = (log w ++ evs)%list ->
      ~ In RenderStatic evs /\
      forall body,
        In (Send body) evs ->
        exists inj scripts,
          body = Page.head_block None (publicPath (output webpackConfig)) EmptyString ++
                 Page.indent ++ Page.root_div EmptyString ++ Str.nl ++
                 Page.indent ++ Page.inj_script (serializeJs (JObj [])) inj ++ Str.nl ++
                 Page.scripts_block (publicPath (output webpackConfig))
                   (Page.extra_markup scripts)) /\
  (forall n A,
      App = Some A ->
      fst (handler E webpackConfig
             {| Application := App; beforeRender := h; maxSsrRounds := n |}
             buildInfo req w) = Resolved tt ->
      In RenderStatic
        (log (snd (handler E webpackConfig
                     {| Application := App; beforeRender := h; maxSsrRounds := n |}
                     buildInfo req w)))).
Proof.
  split; [reflexivity|]. split.
  - intros n evs -> Hlog.
    destruct (handler_events E webpackConfig
                {| Application := None; beforeRender := h; maxSsrRounds := n |}
                buildInfo req w)
      as [(data & inj & _ & Hev)|(e & evs' & _ & Hev & Hshape)];
      rewrite Hev in Hlog; apply app_inv_head in Hlog; subst evs.
    + unfold success_events, ssr_events, ssr_helmet, ssr_App. simpl.
      split.
      * intros [H|[H|[H|[]]]]; discriminate.
      * intros body [H|[H|[H|[]]]]; try discriminate.
        inversion H. exists inj, (extraScripts data). reflexivity.
    + unfold failure_events, ssr_events in Hshape. simpl in Hshape.
      destruct Hshape as [-> | [-> | ->]]; simpl; split;
        try (intros body); intuition discriminate.
  - intros n A -> Hok.
    destruct (handler_events E webpackConfig
                {| Application := Some A; beforeRender := h; maxSsrRounds := n |}
                buildInfo req w)
      as [(data & inj & _ & Hev)|(e & evs' & [Hf|Hf] & _)].
    + rewrite Hev. apply in_or_app. right.
      unfold success_events, ssr_events. simpl. auto.
    + rewrite Hf in Hok. discriminate.
    + rewrite Hf in Hok. discriminate.
Qed.

Lemma rendering_is_gated_by_Application_alone_witness :
  In RenderStatic
    (log (snd (handler Sample.env (Sample.webpackConfig "/app")
                 {| Application := Some "Scene"; beforeRender := None;
                    maxSsrRounds := Some 0 |}
                 Sample.build_info Sample.req Sample.world0))) /\
  ~ In RenderStatic
    (log (snd (handler Sample.env (Sample.webpackConfig "/app")
                 {| Application := None; beforeRender := None;
                    maxSsrRounds := Some 0 |}
                 Sample.build_info Sample.req Sample.world0))).
Proof.
  destruct (rendering_is_gated_by_Application_alone
              Sample.env (Sample.webpackConfig "/app") (Some "Scene") None
              Sample.build_info Sample.req Sample.world0) as (_ & _ & Hsome).
  destruct (rendering_is_gated_by_Application_alone
              Sample.env (Sample.webpackConfig "/app") None None
              Sample.build_info Sample.req Sample.world0) as (_ & Hnone & _).
  split.
  - apply (Hsome (Some 0) "Scene" eq_refl). reflexivity.
  - apply (Hnone (Some 0) _ eq_refl). reflexivity.
Defined.

(* ================================================================= *)
(** * The stylesheet links *)

Lemma styles_has_link (before after : list string) (chunk : string) :
  Str.join0 (map Page.chunk_link (before ++ chunk :: after)) =
  Str.join0 (map Page.chunk_link before) ++ Page.chunk_link chunk ++
  Str.join0 (map Page.chunk_link after).
Proof.
  rewrite map_app, StrFacts.join0_app. simpl map.
  now rewrite StrFacts.join0_cons.
Qed.

(** Lines 134 to 136 on any context: one link for each entry of
    [context.chunks], in the order of the entries, and building them cannot
    fail. *)
Lemma styles_links_every_chunk
    (webpackConfig : WebpackConfig) (ctx : Context)
    (helmet : option HelmetData) (App : option element) (inj : string)
    (scripts : option (list string)) (w : world) :
  (forall chunk,
      In chunk (chunks ctx) ->
      exists before after,
        chunks ctx = (before ++ chunk :: after)%list /\
        Page.styles ctx =
          Str.join0 (map Page.chunk_link before) ++ Page.chunk_link chunk ++
          Str.join0 (map Page.chunk_link after)) /\
  (chunks ctx = [] -> Page.styles ctx = EmptyString) /\
  (exists top bottom,
      Page.page helmet (publicPath (output webpackConfig)) ctx App inj scripts
      = top ++ Page.styles ctx ++ bottom) /\
  fst (respond webpackConfig ctx helmet App inj scripts w) = Resolved tt.
Proof.
  split; [|split; [|split]].
  - intros chunk Hin. destruct (in_split _ _ Hin) as (before & after & Hsplit).
    exists before, after. split; [exact Hsplit|].
    unfold Page.styles. rewrite Hsplit. apply styles_has_link.
  - intros Hnil. unfold Page.styles. rewrite Hnil. reflexivity.
  - exists (Page.head_top helmet (publicPath (output webpackConfig))).
    eexists. unfold Page.page, Page.head_block.
    rewrite !StrFacts.app_assoc. reflexivity.
  - unfold respond, bind.
    destruct (status ctx) as [code|]; [destruct (Z.eqb code 0)|]; reflexivity.
Qed.



(* ================================================================= *)
(** * The scripts *)

(** C5 does not hold as the specification words it.  In the page of a
    request whose hook hands out one extra script, the closing tags are all
    that comes after the tag of the main bundle. *)
Lemma extra_script_precedes_main :
  exists body,
    In (Send body)
       (log (snd (handler Sample.env (Sample.webpackConfig "/app")
                    Sample.options_extra Sample.build_info Sample.req
                    Sample.world0))) /\
    ~ Spec.extras_follow_main "/test/public/path/" [Sample.extra] body.
Proof.
  eexists. split.
  - vm_compute. right. right. left. reflexivity.
  - intros H. destruct (H Sample.extra) as (rest & Hafter & Hinc).
    + left. reflexivity.
    + vm_compute in Hafter. inversion Hafter; subst rest.
      vm_compute in Hinc. discriminate.
Qed.

(** C5, as the handler has it.  After the root element and the inline
    script come the tag of the polyfills, then the extra scripts of the
    caller, joined as they are, then the tag of the main bundle, and the
    closing tags: every extra script sits between the two tags. *)
Theorem extra_scripts_sit_between_polyfills_and_main
    (helmet : option HelmetData) (publicPath : string) (ctx : Context)
    (App : option element) (inj : string) (scripts : option (list string)) :
  Page.page helmet publicPath ctx App inj scripts =
    (Page.head_block helmet publicPath (Page.styles ctx) ++
     Page.indent ++ Page.root_div (Page.root_markup App) ++ Str.nl ++
     Page.indent ++ Page.inj_script (serializeJs (splits ctx)) inj ++ Str.nl ++
     Page.indent) ++
    Page.polyfills_script publicPath ++ Str.nl ++
    Page.indent ++ Page.extra_markup scripts ++ Str.nl ++
    Page.indent ++ Page.main_script publicPath ++
    Str.nl ++ "        </body>" ++ Str.nl ++ "      </html>"
  /\
  (forall before s after,
      scripts = Some (before ++ s :: after)%list ->
      Page.extra_markup scripts = Str.join0 before ++ s ++ Str.join0 after) /\
  (scripts = None -> Page.extra_markup scripts = EmptyString).
Proof.
  split; [|split].
  - unfold Page.page, Page.scripts_block, Page.page_end.
    repeat rewrite StrFacts.app_assoc. reflexivity.
  - intros before s after ->. unfold Page.extra_markup.
    now rewrite StrFacts.join0_app, StrFacts.join0_cons.
  - intros ->. reflexivity.
Qed.

Lemma extra_scripts_sit_between_polyfills_and_main_witness :
  Page.extra_markup (Some ["<script>one()</script>"; Sample.extra])
  = Str.join0 ["<script>one()</script>"] ++ Sample.extra ++ Str.join0 [].
Proof.
  destruct (extra_scripts_sit_between_polyfills_and_main
              None "/test/public/path/" new_context None "SU5K"
              (Some ["<script>one()</script>"; Sample.extra])) as (_ & H & _).
  apply (H ["<script>one()</script>"] Sample.extra []). reflexivity.
Defined.

(* ================================================================= *)
(** * Failures *)

(** C6 does not hold as the specification words it.  With a hook whose
    promise rejects, the error callback is not called. *)
Lemma rejection_is_not_reported :
  ~ Spec.failure_reported_once
      (fst (handler Sample.env (Sample.webpackConfig "/app")
              Sample.options_rejecting Sample.build_info Sample.req
              Sample.world0))
      (log (snd (handler Sample.env (Sample.webpackConfig "/app")
                   Sample.options_rejecting Sample.build_info Sample.req
                   Sample.world0))).
Proof.
  intros H. destruct (H eq_refl) as [Hreports _].
  vm_compute in Hreports. discriminate.
Qed.

(** C6, as the handler has it.  A request that fails ends with the promise
    of the handler rejected with the error, or pending when the exception
    escaped an asynchronous callback; the handler has no error callback to
    call, and calls none; and no page is sent. *)
Theorem failure_rejects_and_sends_nothing
    (E : Env) (webpackConfig : WebpackConfig) (options : Options)
    (buildInfo : json) (req : request) (w : world) :
  settled_ok (fst (handler E webpackConfig options buildInfo req w)) = false ->
  exists e evs,
    (fst (handler E webpackConfig options buildInfo req w) = Rejected e \/
     fst (handler E webpackConfig options buildInfo req w) = Unsettled e) /\
    log (snd (handler E webpackConfig options buildInfo req w)) = (log w ++ evs)%list /\
    Spec.error_reports evs = 0 /\
    Spec.pages_sent evs = 0.
Proof.
  intros Hfail.
  destruct (handler_events E webpackConfig options buildInfo req w)
    as [(data & inj & Hok & _)|(e & evs & Hout & Hlog & Hshape)].
  - rewrite Hok in Hfail. discriminate.
  - exists e, (BeforeRender req (sanitizedConfig E) :: evs).
    split; [exact Hout|]. split; [exact Hlog|].
    unfold failure_events, ssr_events in Hshape.
    destruct Hshape as [-> | [-> | ->]];
      try destruct (Application options); split; reflexivity.
Qed.

Lemma failure_rejects_and_sends_nothing_witness :
  exists e evs,
    (fst (handler Sample.env (Sample.webpackConfig "/app")
            Sample.options_rejecting Sample.build_info Sample.req
            Sample.world0) = Rejected e \/
     fst (handler Sample.env (Sample.webpackConfig "/app")
            Sample.options_rejecting Sample.build_info Sample.req
            Sample.world0) = Unsettled e) /\
    log (snd (handler Sample.env (Sample.webpackConfig "/app")
                Sample.options_rejecting Sample.build_info Sample.req
                Sample.world0)) = (log Sample.world0 ++ evs)%list /\
    Spec.error_reports evs = 0 /\
    Spec.pages_sent evs = 0.
Proof.
  apply (failure_rejects_and_sends_nothing
           Sample.env (Sample.webpackConfig "/app") Sample.options_rejecting
           Sample.build_info Sample.req Sample.world0).
  reflexivity.
Defined.

(** A request that goes through sends one page, and calls no error
    callback either. *)
Lemma success_sends_one_page
    (E : Env) (webpackConfig : WebpackConfig) (options : Options)
    (buildInfo : json) (req : request) (w : world) :
  fst (handler E webpackConfig options buildInfo req w) = Resolved tt ->
  exists evs,
    log (snd (handler E webpackConfig options buildInfo req w)) = (log w ++ evs)%list /\
    Spec.error_reports evs = 0 /\
    Spec.pages_sent evs = 1.
Proof.
  intros Hok.
  destruct (handler_events E webpackConfig options buildInfo req w)
    as [(data & inj & _ & Hlog)|(e & evs & [Hf|Hf] & _)].
  - eexists. split; [exact Hlog|].
    unfold success_events, ssr_events.
    destruct (Application options); split; reflexivity.
  - rewrite Hf in Hok. discriminate.
  - rewrite Hf in Hok. discriminate.
Qed.


(* ================================================================= *)
(** * The options of the dropdown *)

Module DropdownFacts.
Import Dropdown.

Local Open Scope Z_scope.

Lemma at_index_nat {A} (array : list A) (n : nat) :
  at_index array (Z.of_nat n) = nth_error array n.
Proof.
  unfold at_index. destruct (Z.of_nat n <? 0) eqn:H.
  - apply Z.ltb_lt in H. lia.
  - now rewrite Nat2Z.id.
Qed.

Lemma at_index_inv {A} (array : list A) (k : Z) (x : A) :
  at_index array k = Some x ->
  0 <= k < length_of array /\ nth_error array (Z.to_nat k) = Some x.
Proof.
  unfold at_index, length_of. destruct (k <? 0) eqn:Hk; [discriminate|].
  apply Z.ltb_ge in Hk. intros H. split; [|exact H].
  assert (Hlt : (Z.to_nat k < List.length array)%nat).
  { apply nth_error_Some. rewrite H. discriminate. }
  lia.
Qed.

Lemma at_index_some {A} (array : list A) (k : Z) :
  0 <= k < length_of array -> exists x, at_index array k = Some x.
Proof.
  unfold at_index, length_of. intros Hk.
  destruct (k <? 0) eqn:Hneg; [apply Z.ltb_lt in Hneg; lia|].
  destruct (nth_error array (Z.to_nat k)) as [x|] eqn:Hx.
  - now exists x.
  - apply nth_error_None in Hx. lia.
Qed.

(** The loop from the left finds the first element that satisfies the
    predicate. *)
Lemma findIndex_at_spec {A} (predicate : A -> bool) (array : list A) (b : Z) :
  (findIndex_at predicate array b = -1 /\
   forall n x, nth_error array n = Some x -> predicate x = false) \/
  (exists n x,
      findIndex_at predicate array b = b + Z.of_nat n /\
      nth_error array n = Some x /\ predicate x = true /\
      forall m y, (m < n)%nat -> nth_error array m = Some y -> predicate y = false).
Proof.
  revert b. induction array as [|a rest IH]; intros b; simpl.
  - left. split; [reflexivity|]. intros [|n] x H; discriminate.
  - destruct (predicate a) eqn:Ha.
    + right. exists 0%nat, a. repeat split; [lia|exact Ha|]. intros m y Hm. lia.
    + destruct (IH (b + 1)) as [[Hr Hnone]|(n & x & Hr & Hx & Hp & Hbefore)].
      * left. split; [exact Hr|]. intros [|n] x H.
        -- inversion H. now subst.
        -- now apply (Hnone n).
      * right. exists (S n), x. repeat split; [lia|exact Hx|exact Hp|].
        intros [|m] y Hm H.
        -- inversion H. now subst.
        -- apply (Hbefore m); [lia|exact H].
Qed.

(** The loop from the right finds the last one. *)
Lemma findLastIndex_at_spec {A} (predicate : A -> bool) (array : list A) (b : Z) :
  0 <= b ->
  (findLastIndex_at predicate array b = -1 /\
   forall n x, nth_error array n = Some x -> predicate x = false) \/
  (exists n x,
      findLastIndex_at predicate array b = b + Z.of_nat n /\
      nth_error array n = Some x /\ predicate x = true /\
      forall m y, (n < m)%nat -> nth_error array m = Some y -> predicate y = false).
Proof.
  revert b. induction array as [|a rest IH]; intros b Hb; simpl.
  - left. split; [reflexivity|]. intros [|n] x H; discriminate.
  - destruct (IH (b + 1)) as [[Hr Hnone]|(n & x & Hr & Hx & Hp & Hafter)]; [lia| |].
    + rewrite Hr. simpl. destruct (predicate a) eqn:Ha.
      * right. exists 0%nat, a. repeat split; [lia|exact Ha|].
        intros [|m] y Hm H; [lia|]. now apply (Hnone m).
      * left. split; [reflexivity|]. intros [|n] x H.
        -- inversion H. now subst.
        -- now apply (Hnone n).
    + rewrite Hr.
      destruct (0 <=? b + 1 + Z.of_nat n) eqn:Hpos;
        [|apply Z.leb_gt in Hpos; lia].
      right. exists (S n), x. repeat split; [lia|exact Hx|exact Hp|].
      intros [|m] y Hm H; [lia|]. apply (Hafter m); [lia|exact H].
Qed.

(** [array.findIndex(predicate)]: [-1] when no element satisfies the
    predicate, the index of the first that does otherwise. *)
Lemma Array_findIndex_spec {A} (array : list A) (predicate : A -> bool) :
  (Array_findIndex array predicate = -1 /\
   none_in array predicate 0 (length_of array)) \/
  (0 <= Array_findIndex array predicate < length_of array /\
   hit array predicate (Array_findIndex array predicate) /\
   none_in array predicate 0 (Array_findIndex array predicate)).
Proof.
  unfold Array_findIndex, none_in, hit.
  destruct (findIndex_at_spec predicate array 0)
    as [[Hr Hnone]|(n & x & Hr & Hx & Hp & Hbefore)].
  - left. split; [exact Hr|]. intros k x _ Hk.
    apply at_index_inv in Hk. now apply (Hnone (Z.to_nat k)).
  - right. rewrite Hr. simpl.
    assert (Hn : (n < List.length array)%nat).
    { apply nth_error_Some. rewrite Hx. discriminate. }
    unfold length_of. split; [lia|]. split.
    + exists x. rewrite at_index_nat. auto.
    + intros k y Hk Hy. apply at_index_inv in Hy. destruct Hy as [_ Hy].
      apply (Hbefore (Z.to_nat k)); [lia|exact Hy].
Qed.

(** lodash [findIndex] from a start index that is not negative. *)
Lemma findIndex_spec {A} (array : list A) (predicate : A -> bool) (start : Z) :
  0 <= start ->
  (findIndex array predicate (Some start) = -1 /\
   none_in array predicate start (length_of array)) \/
  (start <= findIndex array predicate (Some start) < length_of array /\
   hit array predicate (findIndex array predicate (Some start)) /\
   none_in array predicate start (findIndex array predicate (Some start))).
Proof.
  intros Hs. unfold findIndex, none_in, hit.
  destruct (length_of array =? 0) eqn:Hlen.
  { left. split; [reflexivity|]. apply Z.eqb_eq in Hlen.
    intros k x Hk Hx. apply at_index_inv in Hx. lia. }
  destruct (start <? 0) eqn:Hneg; [apply Z.ltb_lt in Hneg; lia|].
  destruct (findIndex_at_spec predicate (skipn (Z.to_nat start) array) start)
    as [[Hr Hnone]|(n & x & Hr & Hx & Hp & Hbefore)].
  - left. split; [exact Hr|]. intros k x Hk Hx.
    apply at_index_inv in Hx. destruct Hx as [_ Hx].
    apply (Hnone (Z.to_nat k - Z.to_nat start)%nat).
    rewrite nth_error_skipn. rewrite <- Hx. f_equal. lia.
  - right. rewrite Hr. rewrite nth_error_skipn in Hx.
    assert (Hn : (Z.to_nat start + n < List.length array)%nat).
    { apply nth_error_Some. rewrite Hx. discriminate. }
    unfold length_of. split; [lia|]. split.
    + exists x. replace (start + Z.of_nat n) with (Z.of_nat (Z.to_nat start + n)) by lia.
      rewrite at_index_nat. auto.
    + intros k y Hk Hy. apply at_index_inv in Hy. destruct Hy as [_ Hy].
      apply (Hbefore (Z.to_nat k - Z.to_nat start)%nat); [lia|].
      rewrite nth_error_skipn. rewrite <- Hy. f_equal. lia.
Qed.

(** lodash [findLastIndex] from a start index inside the array. *)
Lemma findLastIndex_spec {A} (array : list A) (predicate : A -> bool) (start : Z) :
  0 <= start < length_of array ->
  (findLastIndex array predicate (Some start) = -1 /\
   none_in array predicate 0 (start + 1)) \/
  (0 <= findLastIndex array predicate (Some start) <= start /\
   hit array predicate (findLastIndex array predicate (Some start)) /\
   none_in array predicate (findLastIndex array predicate (Some start) + 1) (start + 1)).
Proof.
  intros Hs. unfold findLastIndex, none_in, hit.
  destruct (length_of array =? 0) eqn:Hlen; [apply Z.eqb_eq in Hlen; lia|].
  destruct (start <? 0) eqn:Hneg; [apply Z.ltb_lt in Hneg; lia|].
  rewrite Z.min_l by lia.
  destruct (findLastIndex_at_spec predicate
              (firstn (Z.to_nat (start + 1)) array) 0 (Z.le_refl 0))
    as [[Hr Hnone]|(n & x & Hr & Hx & Hp & Hafter)].
  - left. split; [exact Hr|]. intros k x Hk Hx.
    apply at_index_inv in Hx. destruct Hx as [_ Hx].
    apply (Hnone (Z.to_nat k)). rewrite nth_error_firstn.
    destruct (Nat.ltb_spec (Z.to_nat k) (Z.to_nat (start + 1))); [exact Hx|lia].
  - right. rewrite Hr. simpl. rewrite nth_error_firstn in Hx.
    destruct (Nat.ltb_spec n (Z.to_nat (start + 1))) as [Hn|Hn]; [|discriminate].
    split; [lia|]. split.
    + exists x. rewrite at_index_nat. auto.
    + intros k y Hk Hy. apply at_index_inv in Hy. destruct Hy as [_ Hy].
      apply (Hafter (Z.to_nat k)); [lia|]. rewrite nth_error_firstn.
      destruct (Nat.ltb_spec (Z.to_nat k) (Z.to_nat (start + 1))); [exact Hy|lia].
Qed.

Lemma findOptionIndex_spec (value : string) (options : list item)
    (filter : option (item -> bool)) :
  (findOptionIndex value options filter = -1 /\
   none_in options (is_current value filter) 0 (length_of options)) \/
  (0 <= findOptionIndex value options filter < length_of options /\
   hit options (is_current value filter) (findOptionIndex value options filter) /\
   none_in options (is_current value filter) 0 (findOptionIndex value options filter)).
Proof. apply Array_findIndex_spec. Qed.

Lemma hit_current_passes (value : string) (options : list item)
    (filter : option (item -> bool)) (i : Z) :
  hit options (is_current value filter) i -> hit options (passes filter) i.
Proof.
  intros (x & Hx & Hp). exists x. split; [exact Hx|].
  unfold is_current in Hp. now apply andb_true_iff in Hp.
Qed.

Lemma hit_not_none {A} (array : list A) (predicate : A -> bool) (lo hi k : Z) :
  hit array predicate k -> none_in array predicate lo hi -> lo <= k < hi -> False.
Proof.
  intros (x & Hx & Hp) Hnone Hk. rewrite (Hnone k x Hk Hx) in Hp. discriminate.
Qed.

Lemma hit_in_range {A} (array : list A) (predicate : A -> bool) (k : Z) :
  hit array predicate k -> 0 <= k < length_of array.
Proof. intros (x & Hx & _). now apply at_index_inv in Hx. Qed.

(** The two ways [findNextOptionIndex] ends. *)
Lemma findNextOptionIndex_cases
    (value : string) (options : list item) (filter : option (item -> bool)) :
  let i := findOptionIndex value options filter in
  let r := findNextOptionIndex value options filter in
  (r = -1 /\
   (i = -1 \/
    (0 <= i /\ none_in options (passes filter) (i + 1) (length_of options)))) \/
  (0 <= i /\ i < r < length_of options /\
   hit options (passes filter) r /\
   none_in options (passes filter) (i + 1) r).
Proof.
  cbv zeta. unfold findNextOptionIndex.
  destruct (findOptionIndex_spec value options filter)
    as [[Hi _]|(Hi & _ & _)].
  - rewrite Hi. simpl. left. auto.
  - destruct (0 <=? findOptionIndex value options filter) eqn:H0;
      [|apply Z.leb_gt in H0; lia].
    destruct (findOptionIndex value options filter + 1 <? length_of options) eqn:H1;
      simpl.
    + apply Z.ltb_lt in H1. destruct filter as [f|].
      * destruct (findIndex_spec options f
                    (findOptionIndex value options (Some f) + 1))
          as [[Hr Hnone]|(Hr & Hhit & Hnone)]; [lia| |].
        -- left. split; [exact Hr|]. right. split; [lia|exact Hnone].
        -- right. split; [lia|]. split; [lia|]. split; assumption.
      * right. split; [lia|]. split; [lia|]. split.
        -- destruct (at_index_some options
                       (findOptionIndex value options None + 1)) as [x Hx]; [lia|].
           exists x. auto.
        -- intros k x Hk. lia.
    + apply Z.ltb_ge in H1. left. split; [reflexivity|]. right.
      split; [lia|]. intros k x Hk Hx. apply at_index_inv in Hx. lia.
Qed.

(** The two ways [findPrevOptionIndex] ends. *)
Lemma findPrevOptionIndex_cases
    (value : string) (options : list item) (filter : option (item -> bool)) :
  let i := findOptionIndex value options filter in
  let r := findPrevOptionIndex value options filter in
  (r = -1 /\
   (i = -1 \/ (0 <= i /\ none_in options (passes filter) 0 i))) \/
  (0 <= r < i /\
   hit options (passes filter) r /\
   none_in options (passes filter) (r + 1) i).
Proof.
  cbv zeta. unfold findPrevOptionIndex.
  destruct (findOptionIndex_spec value options filter)
    as [[Hi _]|(Hi & _ & _)].
  - rewrite Hi. left. destruct filter; simpl; auto.
  - destruct filter as [f|].
    + destruct (0 <=? findOptionIndex value options (Some f) - 1) eqn:H0.
      * apply Z.leb_le in H0.
        destruct (findLastIndex_spec options f
                    (findOptionIndex value options (Some f) - 1))
          as [[Hr Hnone]|(Hr & Hhit & Hnone)]; [lia| |].
        -- rewrite Hr. simpl. left. split; [reflexivity|]. right.
           split; [lia|].
           intros k y Hk Hy. apply (Hnone k y); [lia|exact Hy].
        -- destruct (0 <=? findLastIndex options f
                             (Some (findOptionIndex value options (Some f) - 1)))
             eqn:H1; [|apply Z.leb_gt in H1; lia].
           right. split; [lia|]. split; [exact Hhit|].
           intros k y Hk Hy. apply (Hnone k y); [lia|exact Hy].
      * rewrite H0. apply Z.leb_gt in H0. left. split; [reflexivity|]. right.
        split; [lia|]. intros k x Hk. lia.
    + destruct (0 <=? findOptionIndex value options None - 1) eqn:H0.
      * apply Z.leb_le in H0. right. split; [lia|]. split.
        -- destruct (at_index_some options
                       (findOptionIndex value options None - 1)) as [x Hx]; [lia|].
           exists x. auto.
        -- intros k x Hk. lia.
      * apply Z.leb_gt in H0. left. split; [reflexivity|]. right.
        split; [lia|]. intros k x Hk. lia.
Qed.

(** X3.  Going to the next option and back returns to where one was,
    provided the option reached is the first one with its value (values
    are not repeated). *)
Theorem findPrevOptionIndex_after_findNextOptionIndex
    (value : string) (options : list item) (filter : option (item -> bool))
    (x : item) :
  findNextOptionIndex value options filter <> -1 ->
  at_index options (findNextOptionIndex value options filter) = Some x ->
  findOptionIndex (optionValue x) options filter
    = findNextOptionIndex value options filter ->
  findPrevOptionIndex (optionValue x) options filter
    = findOptionIndex value options filter.
Proof.
  intros Hfound Hx Hfirst.
  destruct (findNextOptionIndex_cases value options filter)
    as [[Hr _]|(Hi & Hr & Hhit & Hnone)]; [contradiction|].
  destruct (findOptionIndex_spec value options filter)
    as [[Hi' _]|(_ & Hcur & _)]; [lia|].
  apply hit_current_passes in Hcur.
  destruct (findPrevOptionIndex_cases (optionValue x) options filter)
    as [[_ [Hj|[_ Hnone']]]|(Hp & Hhit' & Hnone')];
    rewrite Hfirst in *.
  - lia.
  - exfalso. apply (hit_not_none _ _ _ _ _ Hcur Hnone'). lia.
  - destruct (Z.lt_trichotomy (findPrevOptionIndex (optionValue x) options filter)
                (findOptionIndex value options filter)) as [Hlt|[Heq|Hgt]].
    + exfalso. apply (hit_not_none _ _ _ _ _ Hcur Hnone'). lia.
    + exact Heq.
    + exfalso. apply (hit_not_none _ _ _ _ _ Hhit' Hnone). lia.
Qed.

(** X4.  Going to the previous option and forth returns to where one was,
    under the same proviso. *)
Theorem findNextOptionIndex_after_findPrevOptionIndex
    (value : string) (options : list item) (filter : option (item -> bool))
    (x : item) :
  findPrevOptionIndex value options filter <> -1 ->
  at_index options (findPrevOptionIndex value options filter) = Some x ->
  findOptionIndex (optionValue x) options filter
    = findPrevOptionIndex value options filter ->
  findNextOptionIndex (optionValue x) options filter
    = findOptionIndex value options filter.
Proof.
  intros Hfound Hx Hfirst.
  destruct (findPrevOptionIndex_cases value options filter)
    as [[Hr _]|(Hr & Hhit & Hnone)]; [contradiction|].
  destruct (findOptionIndex_spec value options filter)
    as [[Hi' _]|(Hilen & Hcur & _)]; [lia|].
  apply hit_current_passes in Hcur.
  destruct (findNextOptionIndex_cases (optionValue x) options filter)
    as [[_ [Hj|[_ Hnone']]]|(_ & Hn & Hhit' & Hnone')];
    rewrite Hfirst in *.
  - lia.
  - exfalso. apply (hit_not_none _ _ _ _ _ Hcur Hnone'). lia.
  - destruct (Z.lt_trichotomy (findNextOptionIndex (optionValue x) options filter)
                (findOptionIndex value options filter)) as [Hlt|[Heq|Hgt]].
    + exfalso. apply (hit_not_none _ _ _ _ _ Hhit' Hnone). lia.
    + exact Heq.
    + exfalso. apply (hit_not_none _ _ _ _ _ Hcur Hnone'). lia.
Qed.

Lemma findPrevOptionIndex_after_findNextOptionIndex_witness :
  findPrevOptionIndex "cherry" fruits (Some not_b)
  = findOptionIndex "avocado" fruits (Some not_b).
Proof.
  apply (findPrevOptionIndex_after_findNextOptionIndex
           "avocado" fruits (Some not_b) (Object (Some "Cherry") "cherry")).
  - vm_compute. discriminate.
  - reflexivity.
  - reflexivity.
Defined.

Lemma findNextOptionIndex_after_findPrevOptionIndex_witness :
  findNextOptionIndex "avocado" fruits (Some not_b)
  = findOptionIndex "cherry" fruits (Some not_b).
Proof.
  apply (findNextOptionIndex_after_findPrevOptionIndex
           "cherry" fruits (Some not_b) (Object (Some "Avocado") "avocado")).
  - vm_compute. discriminate.
  - reflexivity.
  - reflexivity.
Defined.

(** X1.  When [findNextOptionIndex] answers an index, it is the index of the
    first option after the current one that passes the filter.  It answers
    [-1] exactly when there is no current option (none has the value and
    passes the filter) or no option after the current one passes the filter:
    it does not go round to the top. *)
Theorem findNextOptionIndex_is_first_after
    (value : string) (options : list item) (filter : option (item -> bool)) :
  let i := findOptionIndex value options filter in
  let r := findNextOptionIndex value options filter in
  (r <> -1 ->
   0 <= i /\ i < r < length_of options /\
   hit options (passes filter) r /\
   none_in options (passes filter) (i + 1) r) /\
  (r = -1 <->
   i = -1 \/ none_in options (passes filter) (i + 1) (length_of options)).
Proof.
  cbv zeta.
  destruct (findNextOptionIndex_cases value options filter)
    as [[Hr Hwhy]|(Hi & Hr & Hhit & Hnone)].
  - split; [intros H; contradiction|]. split; [|intros _; exact Hr].
    intros _. destruct Hwhy as [Hi|[_ Hnone]]; auto.
  - split; [intros _; auto|]. split; [lia|].
    intros [Hi'|Hnone']; [lia|].
    exfalso. apply (hit_not_none _ _ _ _ _ Hhit Hnone'). lia.
Qed.

(** X2.  When [findPrevOptionIndex] answers an index, it is the index of the
    last option before the current one that passes the filter.  It answers
    [-1] exactly when there is no current option or no option before the
    current one passes the filter: it does not go round to the end. *)
Theorem findPrevOptionIndex_is_last_before
    (value : string) (options : list item) (filter : option (item -> bool)) :
  let i := findOptionIndex value options filter in
  let r := findPrevOptionIndex value options filter in
  (r <> -1 ->
   0 <= r < i /\
   hit options (passes filter) r /\
   none_in options (passes filter) (r + 1) i) /\
  (r = -1 <-> i = -1 \/ none_in options (passes filter) 0 i).
Proof.
  cbv zeta.
  destruct (findPrevOptionIndex_cases value options filter)
    as [[Hr Hwhy]|(Hr & Hhit & Hnone)].
  - split; [intros H; contradiction|]. split; [|intros _; exact Hr].
    intros _. destruct Hwhy as [Hi|[_ Hnone]]; auto.
  - split; [intros _; auto|]. split; [lia|].
    intros [Hi'|Hnone']; [lia|].
    exfalso. apply (hit_not_none _ _ _ _ _ Hhit Hnone'). lia.
Qed.

Lemma findIndex_from_top {A} (array : list A) (predicate : A -> bool) :
  findIndex array predicate None = findIndex array predicate (Some 0).
Proof. reflexivity. Qed.

(** The search starts inside the list, or at the top. *)
Lemma search_start_range (search : string) (options : list item)
    (value : string) (filter : option (item -> bool)) :
  0 <= search_start search options value filter /\
  (search_start search options value filter < length_of options \/
   search_start search options value filter = 0).
Proof.
  unfold search_start.
  destruct (findOptionIndex_spec value options filter) as [[Hi _]|(Hi & _)];
    destruct (Nat.eqb (String.length search) 1);
    match goal with
    | |- context [if ?c then _ else _] => destruct c eqn:Hc
    end; try lia;
    apply orb_false_iff in Hc; destruct Hc as [Hc Hc'];
    apply Z.ltb_ge in Hc; apply Z.eqb_neq in Hc'; lia.
Qed.

(** The two ways [searchOption] ends. *)
Lemma searchOption_cases (search : string) (options : list item)
    (value : string) (filter : option (item -> bool)) :
  (searchOption search options value filter = -1 /\
   none_in options (matches search filter) 0 (length_of options)) \/
  (0 <= searchOption search options value filter < length_of options /\
   hit options (matches search filter) (searchOption search options value filter)).
Proof.
  unfold searchOption. cbv zeta.
  destruct (search_start_range search options value filter) as [Hstart _].
  set (start := search_start search options value filter) in *.
  destruct (findIndex_spec options (matches search filter) start Hstart)
    as [[Hr Hnone]|(Hr & Hhit & _)].
  - rewrite Hr. simpl. destruct (0 <? start) eqn:Hpos.
    + rewrite findIndex_from_top.
      destruct (findIndex_spec options (matches search filter) 0 (Z.le_refl 0))
        as [[Hr' Hnone']|(Hr' & Hhit' & _)].
      * left. auto.
      * right. split; [lia|exact Hhit'].
    + apply Z.ltb_ge in Hpos. left. split; [reflexivity|].
      now replace 0 with start by lia.
  - destruct (findIndex options (matches search filter) (Some start) <? 0) eqn:Hneg;
      [apply Z.ltb_lt in Hneg; lia|].
    simpl. right. split; [lia|exact Hhit].
Qed.

(** X5.  [searchOption] answers the index of an option whose name starts
    with the query and which passes the filter; it answers [-1] exactly when
    there is no such option anywhere in the list, wherever the current option
    is: the search goes round to the top. *)
Theorem searchOption_finds_a_match_if_any
    (search : string) (options : list item) (value : string)
    (filter : option (item -> bool)) :
  let r := searchOption search options value filter in
  (r <> -1 ->
   0 <= r < length_of options /\ hit options (matches search filter) r) /\
  (r = -1 <-> none_in options (matches search filter) 0 (length_of options)).
Proof.
  cbv zeta.
  destruct (searchOption_cases search options value filter)
    as [[Hr Hnone]|[Hr Hhit]].
  - split; [intros H; contradiction|]. split; auto.
  - split; [auto|]. split; [lia|].
    intros Hnone. exfalso. apply (hit_not_none _ _ _ _ _ Hhit Hnone). lia.
Qed.

(** X6.  With a query that is not one character long, [searchOption] stays
    on the current option as long as its name starts with the query. *)
Theorem searchOption_keeps_current_match
    (search : string) (options : list item) (value : string)
    (filter : option (item -> bool)) :
  String.length search <> 1%nat ->
  hit options (matches search filter) (findOptionIndex value options filter) ->
  searchOption search options value filter = findOptionIndex value options filter.
Proof.
  intros Hlen Hhit.
  assert (Hi := hit_in_range _ _ _ Hhit).
  assert (Hstart : search_start search options value filter
                   = findOptionIndex value options filter).
  { unfold search_start. apply Nat.eqb_neq in Hlen. rewrite Hlen.
    destruct (findOptionIndex value options filter <? 0) eqn:H0;
      [apply Z.ltb_lt in H0; lia|].
    destruct (findOptionIndex value options filter =? length_of options) eqn:H1;
      [apply Z.eqb_eq in H1; lia|].
    reflexivity. }
  unfold searchOption. cbv zeta. rewrite Hstart.
  destruct (findIndex_spec options (matches search filter)
              (findOptionIndex value options filter))
    as [[Hr Hnone]|(Hr & _ & Hnone)]; [lia| |].
  - exfalso. apply (hit_not_none _ _ _ _ _ Hhit Hnone). lia.
  - destruct (findIndex options (matches search filter)
                (Some (findOptionIndex value options filter)) <? 0) eqn:Hneg;
      [apply Z.ltb_lt in Hneg; lia|].
    simpl.
    destruct (Z.eq_dec (findIndex options (matches search filter)
                          (Some (findOptionIndex value options filter)))
                (findOptionIndex value options filter)) as [Heq|Hne];
      [exact Heq|].
    exfalso. apply (hit_not_none _ _ _ _ _ Hhit Hnone). lia.
Qed.

Lemma searchOption_keeps_current_match_witness :
  searchOption "bl" fruits "blueberry" None = findOptionIndex "blueberry" fruits None.
Proof.
  apply searchOption_keeps_current_match.
  - simpl. discriminate.
  - exists (Text "blueberry"). split; reflexivity.
Defined.

(** X7.  With a query of one character, [searchOption] moves on: when an
    option after the current one matches, it answers the first such option;
    when none does, it answers what a search from the top of the list finds
    (which may be the current option again, or [-1]). *)
Theorem searchOption_one_character_cycles
    (search : string) (options : list item) (value : string)
    (filter : option (item -> bool)) :
  String.length search = 1%nat ->
  let i := findOptionIndex value options filter in
  let r := searchOption search options value filter in
  (forall k,
      i < k -> hit options (matches search filter) k ->
      i < r <= k /\ hit options (matches search filter) r /\
      none_in options (matches search filter) (i + 1) r) /\
  (none_in options (matches search filter) (i + 1) (length_of options) ->
   r = findIndex options (matches search filter) None).
Proof.
  intros Hlen. cbv zeta.
  assert (Hi : -1 <= findOptionIndex value options filter < length_of options).
  { destruct (findOptionIndex_spec value options filter) as [[Hi _]|(Hi & _)].
    - rewrite Hi. unfold length_of. lia.
    - lia. }
  split.
  - intros k Hk Hhit. assert (Hkr := hit_in_range _ _ _ Hhit).
    assert (Hstart : search_start search options value filter
                     = findOptionIndex value options filter + 1).
    { unfold search_start. apply Nat.eqb_eq in Hlen. rewrite Hlen.
      destruct (findOptionIndex value options filter + 1 <? 0) eqn:H0;
        [apply Z.ltb_lt in H0; lia|].
      destruct (findOptionIndex value options filter + 1 =? length_of options)
        eqn:H1; [apply Z.eqb_eq in H1; lia|].
      reflexivity. }
    unfold searchOption. cbv zeta. rewrite Hstart.
    destruct (findIndex_spec options (matches search filter)
                (findOptionIndex value options filter + 1))
      as [[Hr Hnone]|(Hr & Hhit' & Hnone)]; [lia| |].
    + exfalso. apply (hit_not_none _ _ _ _ _ Hhit Hnone). lia.
    + destruct (findIndex options (matches search filter)
                  (Some (findOptionIndex value options filter + 1)) <? 0) eqn:Hneg;
        [apply Z.ltb_lt in Hneg; lia|].
      simpl. split; [|split; assumption].
      split; [lia|].
      destruct (Z_le_gt_dec
                  (findIndex options (matches search filter)
                     (Some (findOptionIndex value options filter + 1))) k)
        as [Hle|Hgt]; [exact Hle|].
      exfalso. apply (hit_not_none _ _ _ _ _ Hhit Hnone). lia.
  - intros Hnone. unfold searchOption. cbv zeta.
    destruct (search_start_range search options value filter) as [Hs0 _].
    assert (Hstart : search_start search options value filter
                     = findOptionIndex value options filter + 1 \/
                     search_start search options value filter = 0).
    { unfold search_start. apply Nat.eqb_eq in Hlen. rewrite Hlen.
      match goal with
      | |- context [if ?c then _ else _] => destruct c
      end; auto. }
    destruct Hstart as [Hstart|Hstart]; rewrite Hstart in *.
    + destruct (findIndex_spec options (matches search filter)
                  (findOptionIndex value options filter + 1) Hs0)
        as [[Hr _]|(Hr & Hhit' & _)].
      * rewrite Hr. simpl.
        destruct (0 <? findOptionIndex value options filter + 1) eqn:Hpos;
          [reflexivity|].
        apply Z.ltb_ge in Hpos.
        replace (findOptionIndex value options filter + 1) with 0 in Hr by lia.
        rewrite findIndex_from_top. now rewrite Hr.
      * exfalso. apply (hit_not_none _ _ _ _ _ Hhit' Hnone). lia.
    + rewrite andb_false_r. symmetry. apply findIndex_from_top.
Qed.

Lemma searchOption_one_character_cycles_witness :
  findOptionIndex "blueberry" fruits None
  < searchOption "C" fruits "blueberry" None <= 4.
Proof.
  destruct (searchOption_one_character_cycles "C" fruits "blueberry" None eq_refl)
    as [Hnext _].
  destruct (Hnext 4) as [H _].
  - reflexivity.
  - exists (Object (Some "Cherry") "cherry"). split; reflexivity.
  - exact H.
Defined.

End DropdownFacts.

(* ================================================================= *)
(** * More about the runs of the handler *)

Module HandlerFacts.
Import Calls.

(** The calls of a run, whichever way it ends. *)
Lemma handler_calls (E : Env) (webpackConfig : WebpackConfig)
    (options : Options) (buildInfo : json) (req : request) (w : world) :
  exists evs,
    log (snd (handler E webpackConfig options buildInfo req w))
      = (log w ++ BeforeRender req (sanitizedConfig E) :: evs)%list /\
    ((settled_ok (fst (handler E webpackConfig options buildInfo req w)) = false /\
      (evs = [] \/ evs = [GetBytes 32] \/ evs = GetBytes 32 :: ssr_events options))
     \/
     (fst (handler E webpackConfig options buildInfo req w) = Resolved tt /\
      exists body, evs = (GetBytes 32 :: ssr_events options ++ [Send body])%list)).
Proof.
  destruct (handler_events E webpackConfig options buildInfo req w)
    as [(data & inj & Hok & Hlog)|(e & evs & Hout & Hlog & Hshape)].
  - eexists. split; [exact Hlog|]. right. split; [exact Hok|].
    eexists. reflexivity.
  - exists evs. split; [exact Hlog|]. left. split; [|exact Hshape].
    destruct Hout as [H|H]; rewrite H; reflexivity.
Qed.

(** X8.  The handler never calls [res.status]: the context it builds has no
    [status], and nothing it does before the test of line 133 gives it one. *)
Theorem handler_never_sets_the_status
    (E : Env) (webpackConfig : WebpackConfig) (options : Options)
    (buildInfo : json) (req : request) (w : world) :
  exists evs,
    log (snd (handler E webpackConfig options buildInfo req w)) = (log w ++ evs)%list /\
    forall code, ~ In (Status code) evs.
Proof.
  destruct (handler_calls E webpackConfig options buildInfo req w)
    as (evs & Hlog & Hshape).
  eexists. split; [exact Hlog|].
  intros code Hin. destruct Hin as [Hin|Hin]; [discriminate|].
  unfold ssr_events in Hshape.
  destruct Hshape as [[_ [-> | [-> | ->]]]|[_ [body ->]]];
    destruct (Application options); simpl in Hin;
    repeat (destruct Hin as [Hin|Hin]; [discriminate|]); exact Hin.
Qed.

(** With a hook that can be called (the one of the options, or the default
    one): the hook is called once, and first; the random source is asked once
    at most; and a page is sent exactly when the promise of the handler
    resolves, once, as the last call of the run. *)
Lemma handler_calls_in_order
    (E : Env) (webpackConfig : WebpackConfig) (options : Options)
    (buildInfo : json) (req : request) (w : world) :
  exists evs,
    log (snd (handler E webpackConfig options buildInfo req w))
      = (log w ++ BeforeRender req (sanitizedConfig E) :: evs)%list /\
    count is_BeforeRender evs = 0%nat /\
    (count is_GetBytes evs <= 1)%nat /\
    (settled_ok (fst (handler E webpackConfig options buildInfo req w)) = false ->
     count is_Send evs = 0%nat) /\
    (settled_ok (fst (handler E webpackConfig options buildInfo req w)) = true ->
     count is_Send evs = 1%nat /\
     exists before body, evs = (before ++ [Send body])%list).
Proof.
  destruct (handler_calls E webpackConfig options buildInfo req w)
    as (evs & Hlog & Hshape).
  exists evs. split; [exact Hlog|]. unfold ssr_events in Hshape.
  destruct Hshape as [[Hfail [-> | [-> | ->]]]|[Hok [body ->]]];
    try rewrite Hfail; try rewrite Hok;
    destruct (Application options); unfold count; simpl;
    (split; [reflexivity|]); (split; [lia|]);
    (split; intros H; [reflexivity || discriminate H|]);
    try discriminate H;
    (split; [reflexivity|]).
  - now exists [GetBytes 32; RenderStatic], body.
  - now exists [GetBytes 32], body.
Qed.

(** X9.  When [options.beforeRender] is a function or is left undefined, the
    hook (the default one if undefined) is called exactly once in every run,
    and before anything else; the random source is asked once at most; and a
    page is sent exactly when the promise of the handler resolves, once, as
    the last call of the run.  When [options.beforeRender] is [null], or any
    other value that cannot be called, the handler rejects with a [TypeError]
    and makes no call at all. *)
Theorem hook_is_called_once_and_first_if_callable
    (E : Env) (webpackConfig : WebpackConfig) (App : option component)
    (hook_value : beforeRender_value) (rounds : option nat)
    (buildInfo : json) (req : request) (w : world) :
  let run := handler_with E webpackConfig App hook_value rounds buildInfo req w in
  match hook_value with
  | NotCallable => exists message, run = (Rejected (TypeError message), w)
  | NoHook | Hook _ =>
      exists evs,
        log (snd run) = (log w ++ BeforeRender req (sanitizedConfig E) :: evs)%list /\
        count is_BeforeRender evs = 0%nat /\
        (count is_GetBytes evs <= 1)%nat /\
        (settled_ok (fst run) = false -> count is_Send evs = 0%nat) /\
        (settled_ok (fst run) = true ->
         count is_Send evs = 1%nat /\
         exists before body, evs = (before ++ [Send body])%list)
  end.
Proof.
  cbv zeta. destruct hook_value as [| |h]; unfold handler_with.
  - apply handler_calls_in_order.
  - eexists. reflexivity.
  - apply handler_calls_in_order.
Qed.

(** X10.  When the hook throws, or when the build info is [null], the
    handler rejects before [prepareCipher] is called: the random source is not
    asked and no byte of its stream is used. *)
Theorem no_random_bytes_without_prepareCipher
    (E : Env) (webpackConfig : WebpackConfig) (options : Options)
    (buildInfo : json) (req : request) (w : world) :
  (exists e, ops_beforeRender options req (sanitizedConfig E) = HookThrows e) \/
  buildInfo = JNull ->
  exists e,
    handler E webpackConfig options buildInfo req w =
    (Rejected e,
     {| rng_pos := rng_pos w;
        TRU_BUILD_INFO := TRU_BUILD_INFO w;
        log := log w ++ [BeforeRender req (sanitizedConfig E)] |}).
Proof.
  intros Hwhy. rewrite handler_unfold. cbv zeta.
  destruct (ops_beforeRender options req (sanitizedConfig E)) as [e|p] eqn:Hhook.
  - exists e. reflexivity.
  - destruct Hwhy as [[e He] | ->]; [discriminate|].
    eexists. reflexivity.
Qed.

Lemma no_random_bytes_without_prepareCipher_witness :
  rng_pos (snd (handler Sample.env (Sample.webpackConfig "/app") options_throwing
                  Sample.build_info Sample.req Sample.world0)) = 0%nat.
Proof.
  destruct (no_random_bytes_without_prepareCipher
              Sample.env (Sample.webpackConfig "/app") options_throwing
              Sample.build_info Sample.req Sample.world0) as [e H].
  - left. eexists. reflexivity.
  - rewrite H. reflexivity.
Defined.

(** X18.  However many requests a handler is given, and however they end,
    each of them takes 32 bytes of the random stream at most, and none gives
    bytes back. *)
Theorem serve_draws_32_bytes_per_request_at_most
    (E : Env) (webpackConfig : WebpackConfig) (options : Options)
    (buildInfo : json) (reqs : list request) (w : world) :
  (rng_pos w <= rng_pos (serve (handler E webpackConfig options buildInfo) reqs w)
   <= rng_pos w + 32 * List.length reqs)%nat.
Proof.
  revert w. induction reqs as [|r rest IH]; intros w; simpl serve.
  - simpl. lia.
  - specialize (IH (snd (handler E webpackConfig options buildInfo r w))).
    destruct (handler_rng E webpackConfig options buildInfo r w) as [H|H];
      rewrite H in IH; simpl List.length; lia.
Qed.

(** X11.  With [options.Application], the handler puts the React element it
    built into the template as it is: the root element of the page holds the
    text [[object Object]], whatever the component, the location and the
    store, and not the markup of the application. *)
Theorem root_element_holds_the_element_as_text
    (E : Env) (webpackConfig : WebpackConfig) (options : Options)
    (buildInfo : json) (req : request) (w : world)
    (A : component) (data : RenderData) (key : string) (istate : json) :
  Application options = Some A ->
  ops_beforeRender options req (sanitizedConfig E)
    = HookReturns (Resolved (Some data)) ->
  random_error E (rng_pos w) = None ->
  is_null buildInfo = false ->
  forge_key E (get "key" buildInfo) = Some key ->
  (forall w0, ISTATE (store data) w0 = (Resolved istate, w0)) ->
  exists before after,
    log (snd (handler E webpackConfig options buildInfo req w)) =
      (log w ++ [BeforeRender req (sanitizedConfig E); GetBytes 32; RenderStatic;
                 Send (before ++
                       "<div id=" ++ Str.dq ++ "react-view" ++ Str.dq
                         ++ ">[object Object]</div>" ++ after)])%list.
Proof.
  intros HApp Hhook Hrng Hnull Hkey Hst.
  rewrite (handler_success E webpackConfig options buildInfo req w
             data key istate Hhook Hrng Hnull Hkey Hst).
  unfold success_events, ssr_events, ssr_helmet, ssr_App. rewrite HApp.
  exists (Page.head_block (Some (Helmet_renderStatic E))
            (publicPath (output webpackConfig)) (Page.styles new_context)
          ++ Page.indent),
         (Str.nl ++ Page.indent
          ++ Page.inj_script (serializeJs (splits new_context))
               (INJ E {| cipher_key := key;
                         cipher_iv := random_bytes E (rng_pos w) 32 |}
                  (random_bytes E (rng_pos w) 32)
                  (payload E (configToInject data) istate))
          ++ Str.nl
          ++ Page.scripts_block (publicPath (output webpackConfig))
               (Page.extra_markup (extraScripts data))).
  rewrite StrFacts.app_assoc. reflexivity.
Qed.

Lemma root_element_holds_the_element_as_text_witness :
  exists before after,
    log (snd (handler Sample.env (Sample.webpackConfig "/app") options_scene
                Sample.build_info Sample.req Sample.world0)) =
      (log Sample.world0
         ++ [BeforeRender Sample.req (sanitizedConfig Sample.env); GetBytes 32;
             RenderStatic;
             Send (before ++
                   "<div id=" ++ Str.dq ++ "react-view" ++ Str.dq
                     ++ ">[object Object]</div>" ++ after)])%list.
Proof.
  apply (root_element_holds_the_element_as_text
           Sample.env (Sample.webpackConfig "/app") options_scene
           Sample.build_info Sample.req Sample.world0 "Scene"
           {| configToInject := None; extraScripts := None; store := None |}
           Sample.key32 JNull);
    try reflexivity.
Defined.

(** X12.  A factory that found a build-info file that parses hands out a
    handler that seals every page under the key of that file: the factory
    resolves, publishes the build info as [TRU_BUILD_INFO], and a request
    given to its handler sends the page whose envelope is made with that
    key. *)
Theorem factory_handler_uses_the_key_of_the_file
    (E : Env) (webpackConfig : WebpackConfig) (options : Options)
    (req : request) (w : world) (info : string) (buildInfo : json)
    (data : RenderData) (key : string) (istate : json) :
  fs_readFile E (path_resolve E (context webpackConfig) ".build-info") = inr info ->
  JSON_parse E info = Some buildInfo ->
  is_null buildInfo = false ->
  forge_key E (get "key" buildInfo) = Some key ->
  ops_beforeRender options req (sanitizedConfig E)
    = HookReturns (Resolved (Some data)) ->
  random_error E (rng_pos w) = None ->
  (forall w0, ISTATE (store data) w0 = (Resolved istate, w0)) ->
  exists h w1,
    factory E webpackConfig options w = (Resolved h, w1) /\
    TRU_BUILD_INFO w1 = Some buildInfo /\
    let iv := random_bytes E (rng_pos w) 32 in
    let inj := INJ E {| cipher_key := key; cipher_iv := iv |} iv
                 (payload E (configToInject data) istate) in
    h req w1 =
      (Resolved tt,
       {| rng_pos := rng_pos w + 32;
          TRU_BUILD_INFO := Some buildInfo;
          log := log w ++ success_events E webpackConfig options req data inj |}).
Proof.
  intros Hread Hparse Hnull Hkey Hhook Hrng Hst.
  rewrite (factory_resolves E webpackConfig options w info buildInfo Hread Hparse).
  eexists _, _. split; [reflexivity|]. split; [reflexivity|]. cbv zeta.
  exact (handler_success E webpackConfig options buildInfo req
           {| rng_pos := rng_pos w;
              TRU_BUILD_INFO := Some buildInfo;
              log := log w |}
           data key istate Hhook Hrng Hnull Hkey Hst).
Qed.

Lemma factory_handler_uses_the_key_of_the_file_witness :
  exists h w1,
    factory Sample.env (Sample.webpackConfig "/app") Sample.plain_options
      Sample.world0 = (Resolved h, w1) /\
    TRU_BUILD_INFO w1 = Some Sample.build_info /\
    settled_ok (fst (h Sample.req w1)) = true.
Proof.
  destruct (factory_handler_uses_the_key_of_the_file
              Sample.env (Sample.webpackConfig "/app") Sample.plain_options
              Sample.req Sample.world0 Sample.build_info_text Sample.build_info
              {| configToInject := None; extraScripts := None; store := None |}
              Sample.key32 JNull
              eq_refl eq_refl eq_refl eq_refl eq_refl eq_refl (fun _ => eq_refl))
    as (h & w1 & Hf & Htru & Hrun).
  exists h, w1. split; [exact Hf|]. split; [exact Htru|].
  cbv zeta in Hrun. rewrite Hrun. reflexivity.
Defined.

Lemma get_in_chars (s : string) (k : nat) (c : ascii) :
  String.get k s = Some c -> In c (chars s).
Proof.
  revert k. induction s as [|a s IH]; intros k H; [discriminate|].
  destruct k as [|k]; simpl in *.
  - inversion H. now left.
  - right. now apply (IH k).
Qed.

Lemma charAt_in_alphabet (n : N) :
  In (Base64.charAt n) (chars Base64.alphabet) \/ Base64.charAt n = "="%char.
Proof.
  unfold Base64.charAt.
  destruct (String.get (N.to_nat n) Base64.alphabet) as [c|] eqn:H.
  - left. now apply (get_in_chars _ (N.to_nat n)).
  - now right.
Qed.

Lemma alphabet_has_no_quote :
  ~ In (ascii_of_nat 34) (chars Base64.alphabet) /\
  "="%char <> ascii_of_nat 34.
Proof.
  split; [|discriminate].
  intros H. vm_compute in H.
  repeat (destruct H as [H|H]; [discriminate H|]). exact H.
Qed.

(** The text of [encode64]: characters of the alphabet and [=], four for
    every three bytes. *)
Lemma encode64_alphabet (s : string) :
  let ok := fun t =>
    Forall (fun c => In c (chars Base64.alphabet) \/ c = "="%char) (chars t) /\
    exists k, String.length t = (4 * k)%nat in
  ok (Base64.encode64 s) /\
  (forall a, ok (Base64.encode64 (String a s))) /\
  (forall a b, ok (Base64.encode64 (String a (String b s)))).
Proof.
  cbv zeta. induction s as [|c s (IH0 & IH1 & IH2)].
  - split; [|split].
    + split; [constructor|now exists 0%nat].
    + intros a. split; [|now exists 1%nat].
      simpl. repeat (constructor; [apply charAt_in_alphabet || now right|]).
      constructor.
    + intros a b. split; [|now exists 1%nat].
      simpl. repeat (constructor; [apply charAt_in_alphabet || now right|]).
      constructor.
  - split; [apply IH1|]. split; [intros a; apply IH2|].
    intros a b. destruct IH0 as [Hchars [k Hk]]. split.
    + simpl. repeat (constructor; [apply charAt_in_alphabet|]). exact Hchars.
    + exists (S k). simpl. simpl in Hk. rewrite Hk. lia.
Qed.

(** X13.  The envelope is base64 text: its characters are letters, digits,
    [+], [/] and [=], four for every three bytes.  It holds no double quote,
    so it cannot end the string literal [window.INJ="..."] it is written
    into. *)
Theorem INJ_is_base64_text
    (E : Env) (cipher : Cipher) (iv : string) (data : json) :
  Forall (fun c => In c (chars Base64.alphabet) \/ c = "="%char)
    (chars (INJ E cipher iv data)) /\
  ~ In (ascii_of_nat 34) (chars (INJ E cipher iv data)) /\
  exists k, String.length (INJ E cipher iv data) = (4 * k)%nat.
Proof.
  unfold INJ.
  destruct (encode64_alphabet
              (iv ++ aes_cbc E (cipher_key cipher) (cipher_iv cipher)
                       (Base64.encodeUtf8 (stringify data))))
    as [[Hchars Hlen] _].
  split; [exact Hchars|]. split; [|exact Hlen].
  intros Hq. rewrite Forall_forall in Hchars.
  destruct (Hchars _ Hq) as [H|H].
  - now apply (proj1 alphabet_has_no_quote).
  - now apply (proj2 alphabet_has_no_quote).
Qed.

Lemma chars_app (a b : string) : chars (a ++ b) = (chars a ++ chars b)%list.
Proof. induction a as [|x a IH]; simpl; [reflexivity|now rewrite IH]. Qed.

Lemma escapeUnsafeChars_safe (s : string) :
  Forall (fun c => unsafe_char c = false) (chars (escapeUnsafeChars s)).
Proof.
  induction s as [|c s IH]; simpl; [constructor|].
  destruct (N.eqb (N_of_ascii c) 60) eqn:H60;
    [repeat (constructor; [reflexivity|]); exact IH|].
  destruct (N.eqb (N_of_ascii c) 62) eqn:H62;
    [repeat (constructor; [reflexivity|]); exact IH|].
  destruct (N.eqb (N_of_ascii c) 47) eqn:H47;
    [repeat (constructor; [reflexivity|]); exact IH|].
  constructor; [|exact IH].
  unfold unsafe_char. now rewrite H60, H62, H47.
Qed.

(** X14.  What is written after [window.SPLITS =] holds none of the
    characters [<], [>] and [/], whatever the markup kept in the splits of the
    context: the markup of a chunk cannot close the script element it is
    written into. *)
Theorem SPLITS_cannot_close_the_script (ctx : Context) :
  Forall (fun c => unsafe_char c = false) (chars (serializeJs (splits ctx))) /\
  (forall c, In c (chars (serializeJs (splits ctx))) ->
             c <> "<"%char /\ c <> ">"%char /\ c <> "/"%char).
Proof.
  split; [apply escapeUnsafeChars_safe|].
  intros c Hin.
  assert (H := escapeUnsafeChars_safe (stringify (splits ctx))).
  rewrite Forall_forall in H. specialize (H c Hin).
  repeat split; intros ->; discriminate H.
Qed.

End HandlerFacts.

(* ================================================================= *)
(** * The port of the server *)

Module ServerFacts.
Import Server.

Lemma normalizePort_is_not_a_string
    (string_toNumber : string -> number) (v : value) :
  isString (normalizePort string_toNumber v) = false.
Proof.
  unfold normalizePort. destruct (toNumber string_toNumber v); reflexivity.
Qed.

(** X15.  [normalizePort] answers a finite number or [false], never a
    string: [_.toNumber] always gives a number, so the test that should let a
    pipe name through never passes, and a name that does not read as a finite
    number is answered with [false]. *)
Theorem normalizePort_never_answers_a_name
    (string_toNumber : string -> number) (v : value) :
  ((exists z, normalizePort string_toNumber v = Number (Finite z)) \/
   normalizePort string_toNumber v = Boolean false) /\
  isString (normalizePort string_toNumber v) = false /\
  (forall name,
      isFinite (Number (string_toNumber name)) = false ->
      normalizePort string_toNumber (String_ name) = Boolean false).
Proof.
  split; [|split].
  - unfold normalizePort. destruct (toNumber string_toNumber v) as [z| |neg]; simpl.
    + left. now exists z.
    + now right.
    + now right.
  - unfold normalizePort. destruct (toNumber string_toNumber v); reflexivity.
  - intros name Hname. unfold normalizePort. simpl toNumber.
    rewrite Hname. reflexivity.
Qed.

Lemma normalizePort_never_answers_a_name_witness :
  normalizePort read_8080 (String_ "/tmp/server.sock") = Boolean false.
Proof.
  apply (normalizePort_never_answers_a_name read_8080 (String_ "/tmp/server.sock")).
  reflexivity.
Defined.

(** X16.  A port of the options that is falsy ([0], [NaN], the empty
    string, [false], none) does not count: the variable [PORT] of the
    environment decides, and [3000] when that is unset or empty.  So [0]
    cannot be asked for as a number. *)
Theorem falsy_port_is_replaced
    (string_toNumber : string -> number) (ops_port env_PORT : value) :
  truthy ops_port = false ->
  launch_port string_toNumber ops_port env_PORT =
    (if truthy env_PORT then normalizePort string_toNumber env_PORT
     else Number (Finite 3000)).
Proof.
  intros Hp. unfold launch_port, or_else. rewrite Hp.
  destruct (truthy env_PORT); reflexivity.
Qed.

Lemma falsy_port_is_replaced_witness :
  launch_port read_8080 (Number (Finite 0)) Undefined = Number (Finite 3000).
Proof.
  apply (falsy_port_is_replaced read_8080 (Number (Finite 0)) Undefined).
  reflexivity.
Defined.

Lemma prefix_empty (s : string) : String.prefix EmptyString s = true.
Proof. now destruct s. Qed.

(** X17.  The handler of the server's errors ends the process, with code 1
    and one logged line, exactly for the errors of [listen] whose code is
    [EACCES] or [EADDRINUSE]; every other error is thrown again.  With the
    port that [launch] keeps, the line always starts with [Port], never with
    [Pipe]. *)
Theorem on_error_exits_for_listen_errors_only
    (string_toNumber : string -> number) (ops_port env_PORT : value)
    (error : server_error) :
  let port := launch_port string_toNumber ops_port env_PORT in
  match on_error port error with
  | LogsAndExits line exit_code =>
      exit_code = 1%Z /\
      syscall error = "listen" /\
      (code error = "EACCES" \/ code error = "EADDRINUSE") /\
      String.prefix "Port " line = true
  | Throws e =>
      e = error /\
      (syscall error <> "listen" \/
       (code error <> "EACCES" /\ code error <> "EADDRINUSE"))
  end.
Proof.
  cbv zeta. unfold on_error.
  destruct (String.eqb_spec (syscall error) "listen") as [Hs|Hs]; simpl.
  2:{ split; [reflexivity|]. now left. }
  assert (Hport : isString (launch_port string_toNumber ops_port env_PORT) = false).
  { unfold launch_port.
    apply (normalizePort_is_not_a_string string_toNumber). }
  rewrite Hport.
  destruct (String.eqb_spec (code error) "EACCES") as [Hc|Hc].
  - repeat split; auto; simpl; apply prefix_empty.
  - destruct (String.eqb_spec (code error) "EADDRINUSE") as [Hc'|Hc'].
    + repeat split; auto; simpl; apply prefix_empty.
    + split; [reflexivity|]. right. split; assumption.
Qed.

End ServerFacts.
